(** * A catalog of books kept in memory and saved as a JSON document

    Shallow embedding of [library_management.py]: the classes [Book] and
    [Library], their methods, and the part of the Python run-time that the
    methods observe (exceptions, [print], the files read and written, what
    [json.load] returns).

    Conventions.
    - Python [int] is [Z]; Python [str] is [string], read as the UTF-8
      bytes of the text (substring search and equality on the bytes of
      well-formed UTF-8 agree with those on the characters).
    - A method is a computation in the monad [Py]: it threads the object
      [self], the lines printed so far and the disk, and ends by returning,
      by letting an exception escape, or by leaving the typed model.
    - State written before an exception is raised stays written, as in
      Python. *)

From Stdlib Require Import Ascii.
From stdpp Require Import base option list sorting strings pretty gmap.

Set Warnings "-register-all".
Local Open Scope Z_scope.

(** ** JSON values, as [json.load] returns them *)

(** [JFloat] stands for any number written with a fraction or an exponent;
    no operation of the program looks at its value. [JObj] lists the items
    of a [dict] in insertion order: the keys of a dict are distinct, and in
    a list that repeats a key the first binding is the one that counts. *)
Inductive json : Type :=
| JNull
| JBool (b : bool)
| JInt (n : Z)
| JFloat
| JStr (s : string)
| JArr (items : list json)
| JObj (fields : list (string * json)).

(** ** Exceptions *)

Inductive exn : Type :=
| ValueError (msg : string)
| FileNotFoundError (filename : string)
| JSONDecodeError (msg : string)
| KeyError (key : string)
| TypeError (msg : string)
| AttributeError (msg : string)
| UnicodeDecodeError (msg : string).

(** [str(e)], used by the handlers that print the exception they caught. *)
Definition exn_str (e : exn) : string :=
  match e with
  | ValueError msg => msg
  | FileNotFoundError f => "[Errno 2] No such file or directory: '" +:+ f +:+ "'"
  | JSONDecodeError msg => msg
  | KeyError k => "'" +:+ k +:+ "'"
  | TypeError msg => msg
  | AttributeError msg => msg
  | UnicodeDecodeError msg => msg
  end.

(** ** class Book *)

Record Book : Type := mkBook {
  book_id : Z;
  title : string;
  author : string;
  year : Z;
  status : string
}.

(** The default of the parameter [status] of [Book.__init__]. *)
Definition default_status : string := "в наличии".

(** [Book.to_dict] *)
Definition to_dict (b : Book) : json :=
  JObj [ ("book_id", JInt (book_id b));
         ("title", JStr (title b));
         ("author", JStr (author b));
         ("year", JInt (year b));
         ("status", JStr (status b)) ].

(** ** class Library and the world around it *)

Record Library : Type := mkLibrary {
  books : list Book;
  next_id : Z
}.

(** [Library.__init__] *)
Definition Library_init : Library := {| books := []; next_id := 1 |}.

(** What [open], [os.stat] and [json.load] observe of an existing file.
    The disk holds regular files that the process may read and write. A
    file that is not empty either holds bytes that are not UTF-8, so that
    reading it as text fails, or holds text that the parser of [json]
    rejects, or holds the text of a JSON value. *)
Inductive file : Type :=
| ZeroLength                      (* [st_size == 0] *)
| Malformed (msg : string)        (* [json.load] raises [JSONDecodeError(msg)] *)
| Document (v : json)             (* [json.load] returns [v] *)
| Undecodable (msg : string).     (* [f.read()], called by [json.load],
                                     raises [UnicodeDecodeError]; [msg] is
                                     its text *)

Record State : Type := mkState {
  self : Library;
  stdout : list string;
  disk : gmap string file
}.

(** ** The monad of method bodies *)

Inductive outcome (A : Type) : Type :=
| Ret (a : A)       (* the call returns [a] *)
| Exc (e : exn)     (* the exception [e] leaves the call *)
| Untyped.          (* a field was about to hold a value outside its
                       annotated type; the run is not followed further *)
Arguments Ret {A} a.
Arguments Exc {A} e.
Arguments Untyped {A}.

Definition Py (A : Type) : Type := State → outcome A * State.

Definition Py_ret_def {A} (a : A) : Py A := λ s, (Ret a, s).

Definition Py_bind_def {A B} (k : A → Py B) (m : Py A) : Py B := λ s,
  match m s with
  | (Ret a, s') => k a s'
  | (Exc e, s') => (Exc e, s')
  | (Untyped, s') => (Untyped, s')
  end.

#[global] Instance Py_ret : MRet Py := @Py_ret_def.
#[global] Instance Py_bind : MBind Py := @Py_bind_def.

(** [raise e] *)
#[global] Instance Py_throw : MThrow exn Py := λ A e s, (Exc e, s).

Definition untyped {A} : Py A := λ s, (Untyped, s).

(** An [except <class> as e: handler] clause: the test tells whether an
    exception is an instance of the class. *)
Definition clause (A : Type) : Type := (exn → bool) * (exn → Py A).

Fixpoint select {A} (clauses : list (clause A)) (e : exn) : option (Py A) :=
  match clauses with
  | [] => None
  | (test, handler) :: clauses' =>
      if test e then Some (handler e) else select clauses' e
  end.

(** [try: body except ...: ... except ...: ...]. The first clause that
    matches handles the exception; an exception that no clause matches, or
    that a handler raises, leaves the statement. *)
Definition try_except {A} (body : Py A) (clauses : list (clause A)) : Py A := λ s,
  match body s with
  | (Exc e, s') =>
      match select clauses e with
      | Some handler => handler s'
      | None => (Exc e, s')
      end
  | r => r
  end.

Definition get_books : Py (list Book) := λ s, (Ret (books (self s)), s).
Definition get_next_id : Py Z := λ s, (Ret (next_id (self s)), s).

Definition set_books (bs : list Book) : Py unit := λ s,
  (Ret (), {| self := {| books := bs; next_id := next_id (self s) |};
              stdout := stdout s; disk := disk s |}).

Definition set_next_id (n : Z) : Py unit := λ s,
  (Ret (), {| self := {| books := books (self s); next_id := n |};
              stdout := stdout s; disk := disk s |}).

(** [print(line)] *)
Definition print (line : string) : Py unit := λ s,
  (Ret (), {| self := self s; stdout := stdout s ++ [line]; disk := disk s |}).

(** Exception classes named by the [except] clauses. *)
Definition is_Exception (e : exn) : bool := true.

Definition is_FileNotFoundError (e : exn) : bool :=
  match e with FileNotFoundError _ => true | _ => false end.

Definition is_JSONDecodeError (e : exn) : bool :=
  match e with JSONDecodeError _ => true | _ => false end.

(** ** Library.add_book *)

Definition add_book (title author : string) (year : Z) : Py unit :=
  n ← get_next_id;
  let book := mkBook n title author year default_status in
  bs ← get_books;
  set_books (bs ++ [book]) ;;
  n' ← get_next_id;
  set_next_id (n' + 1).

(** ** Library.remove_book *)

Definition not_found_msg : string := "Книга с указанным ID не найдена.".

Definition remove_book (id : Z) : Py unit :=
  try_except
    (bs ← get_books;
     (if bool_decide (length bs = 0%nat)
         || negb (existsb (λ book, bool_decide (book_id book = id)) bs)
      then mthrow (ValueError not_found_msg)
      else mret ()) ;;
     bs ← get_books;
     set_books (List.filter (λ book, negb (bool_decide (book_id book = id))) bs))
    [ (is_Exception,
       λ e, print ("Ошибка при удалении книги: " +:+ exn_str e)) ].

(** ** Library.search_books *)

(** [s.startswith(p)] *)
Fixpoint startswith (s p : string) : bool :=
  match p, s with
  | EmptyString, _ => true
  | String c p', String d s' => bool_decide (c = d) && startswith s' p'
  | String _ _, EmptyString => false
  end.

(** [needle in hay] on [str]: [needle] occurs in [hay] at some offset. *)
Fixpoint str_in (needle hay : string) : bool :=
  startswith hay needle ||
  match hay with
  | EmptyString => false
  | String _ hay' => str_in needle hay'
  end.

(** [str(n)] for an [int]: the decimal numeral, with [-] when negative. *)
Definition str_int (n : Z) : string := pretty n.

Definition search_books (search_term : string) : Py (list Book) :=
  bs ← get_books;
  mret (List.filter
         (λ book, str_in search_term (title book)
                  || str_in search_term (author book)
                  || bool_decide (search_term = str_int (year book)))
         bs).

(** ** Library.change_status *)

Definition set_status (new_status : string) (b : Book) : Book :=
  mkBook (book_id b) (title b) (author b) (year b) new_status.

(** The [for] loop of [change_status]; [i] is the position in [self.books]
    of the head of [rest]. Assigning to [book.status] updates the object
    that the list holds at that position. Running off the end of the list
    reaches the [raise] that follows the loop. *)
Fixpoint change_status_loop (id : Z) (new_status : string)
    (i : nat) (rest : list Book) : Py unit :=
  match rest with
  | [] => mthrow (ValueError not_found_msg)
  | book :: rest' =>
      if bool_decide (book_id book = id)
      then bs ← get_books;
           set_books (<[i := set_status new_status book]> bs)
      else change_status_loop id new_status (S i) rest'
  end.

Definition change_status (id : Z) (new_status : string) : Py unit :=
  try_except
    (bs ← get_books; change_status_loop id new_status 0%nat bs)
    [ (is_Exception,
       λ e, print ("Ошибка при изменении статуса книги: " +:+ exn_str e)) ].

(** ** The run-time services used by the file methods *)

(** [with open(filename, 'w', encoding='utf-8') as f: json.dump(v, f, ...)]:
    the file is created or overwritten and holds the text of [v]. That text
    is never empty, and [json.load] reads it back as [v]: the values
    written here are lists of dicts with [str] keys and [int] or [str]
    values, which [json] writes and reads without loss. *)
Definition json_dump (v : json) (filename : string) : Py unit := λ s,
  (Ret (), {| self := self s; stdout := stdout s;
              disk := <[filename := Document v]> (disk s) |}).

(** [open(filename, 'r', encoding='utf-8')] *)
Definition open_r (filename : string) : Py file := λ s,
  match disk s !! filename with
  | Some f => (Ret f, s)
  | None => (Exc (FileNotFoundError filename), s)
  end.

(** [os.path.exists(filename)] *)
Definition os_path_exists (filename : string) : Py bool := λ s,
  (Ret (bool_decide (is_Some (disk s !! filename))), s).

(** [os.stat(filename).st_size == 0] *)
Definition st_size_is_zero (filename : string) : Py bool := λ s,
  match disk s !! filename with
  | Some ZeroLength => (Ret true, s)
  | Some _ => (Ret false, s)
  | None => (Exc (FileNotFoundError filename), s)
  end.

(** [json.load(f)]: it reads the whole file as text, which fails on
    bytes that are not UTF-8, and then parses the text. *)
Definition json_load (f : file) : Py json :=
  match f with
  | Document v => mret v
  | Malformed msg => mthrow (JSONDecodeError msg)
  | ZeroLength =>
      mthrow (JSONDecodeError "Expecting value: line 1 column 1 (char 0)")
  | Undecodable msg => mthrow (UnicodeDecodeError msg)
  end.

(** [type(v).__name__] *)
Definition type_name (v : json) : string :=
  match v with
  | JNull => "NoneType"
  | JBool _ => "bool"
  | JInt _ => "int"
  | JFloat => "float"
  | JStr _ => "str"
  | JArr _ => "list"
  | JObj _ => "dict"
  end.

(** The bytes [10xxxxxx] continue a character of UTF-8. *)
Definition is_continuation (c : ascii) : bool :=
  match c with
  | Ascii _ _ _ _ _ _ b6 b7 => b7 && negb b6
  end.

(** The characters of a [str], each as a [str] of length one. *)
Fixpoint chars (s : string) : list string :=
  match s with
  | EmptyString => []
  | String c s' =>
      let rest := chars s' in
      match s', rest with
      | String d _, h :: t =>
          if is_continuation d then String c h :: t
          else String c EmptyString :: rest
      | _, _ => String c EmptyString :: rest
      end
  end.

(** [for data in v]: the items that iterating over [v] yields. *)
Definition iter (v : json) : Py (list json) :=
  match v with
  | JArr items => mret items
  | JObj fields => mret (JStr <$> fields.*1)
  | JStr s => mret (JStr <$> chars s)
  | _ => mthrow (TypeError ("'" +:+ type_name v +:+ "' object is not iterable"))
  end.

Fixpoint dict_lookup (fields : list (string * json)) (key : string) : option json :=
  match fields with
  | [] => None
  | (k, v) :: fields' => if bool_decide (k = key) then Some v else dict_lookup fields' key
  end.

(** [data[key]] for a [key] that is a [str] *)
Definition getitem (data : json) (key : string) : Py json :=
  match data with
  | JObj fields =>
      match dict_lookup fields key with
      | Some v => mret v
      | None => mthrow (KeyError key)
      end
  | JStr _ => mthrow (TypeError "string indices must be integers, not 'str'")
  | JArr _ => mthrow (TypeError "list indices must be integers or slices, not str")
  | _ => mthrow (TypeError ("'" +:+ type_name data +:+ "' object is not subscriptable"))
  end.

(** [data.get(key, default)] *)
Definition get_method (data : json) (key : string) (dflt : json) : Py json :=
  match data with
  | JObj fields => mret (default dflt (dict_lookup fields key))
  | _ => mthrow (AttributeError
           ("'" +:+ type_name data +:+ "' object has no attribute 'get'"))
  end.

(** ** Library.save_to_file *)

Definition save_to_file (filename : string) : Py unit :=
  bs ← get_books;
  json_dump (JArr (to_dict <$> bs)) filename.

(** ** Library.load_from_file *)

(** The arguments of one call [Book(book_id=..., ..., status=...)] of the
    comprehension, evaluated from left to right. *)
Definition row : Type := json * json * json * json * json.

Definition load_row (data : json) : Py row :=
  i ← getitem data "book_id";
  t ← getitem data "title";
  a ← getitem data "author";
  y ← getitem data "year";
  st ← get_method data "status" (JStr default_status);
  mret (i, t, a, y, st).

(** [[f(x) for x in items]]: the whole list is built, or the first
    exception leaves the comprehension. *)
Fixpoint comprehension {A B} (f : A → Py B) (items : list A) : Py (list B) :=
  match items with
  | [] => mret []
  | x :: items' =>
      y ← f x;
      ys ← comprehension f items';
      mret (y :: ys)
  end.

(** [Book.__init__] stores what it is given. The embedding follows the run
    only when the five values have the types the signature announces
    ([bool] is not taken for an [int]). *)
Definition Book_init (r : row) : Py Book :=
  match r with
  | (JInt i, JStr t, JStr a, JInt y, JStr st) => mret (mkBook i t a y st)
  | _ => untyped
  end.

(** [max(xs)] for a sequence that starts with [x]. *)
Definition py_max (x : Z) (xs : list Z) : Z :=
  foldl (λ m y, if bool_decide (m < y) then y else m) x xs.

Definition empty_msg : string := "Библиотека пуста. Начинаем с пустой библиотеки.".
Definition missing_msg : string := "Файл не найден.".
Definition format_msg : string := "Ошибка чтения файла. Пожалуйста, проверьте формат.".

(** The comprehension is run in two passes: [load_row] evaluates the
    arguments of every call of [Book], in order, and [Book_init] then makes
    the records. [Book.__init__] raises nothing, so the exception that
    leaves the comprehension, if any, is the one Python raises. Nothing is
    assigned to [self.books] unless both passes succeed. *)
Definition load_from_file (filename : string) : Py unit :=
  try_except
    (f ← open_r filename;
     present ← os_path_exists filename;
     empty ← (if negb present then mret true else st_size_is_zero filename);
     if empty : bool
     then print empty_msg
     else
       v ← json_load f;
       items ← iter v;
       rows ← comprehension load_row items;
       bs ← comprehension Book_init rows;
       set_books bs ;;
       bs' ← get_books;
       set_next_id (match bs' with
                    | [] => 1
                    | b :: rest => py_max (book_id b) (book_id <$> rest) + 1
                    end))
    [ (is_FileNotFoundError, λ _, print missing_msg);
      (is_JSONDecodeError, λ _, print format_msg) ].

(** ** Library.display_books *)

(** The f-string of [display_books], and of the search results of the
    menu, which put a label in front: an [int] is written as [str] writes
    it, a [str] as it is. *)
Definition book_line (label : string) (book : Book) : string :=
  label +:+ "ID: " +:+ str_int (book_id book) +:+
  ", Title: " +:+ title book +:+
  ", Author: " +:+ author book +:+
  ", Year: " +:+ str_int (year book) +:+
  ", Status: " +:+ status book.

(** [for x in items: body(x)], for a body without [break]. *)
Fixpoint for_each {A} (body : A → Py unit) (items : list A) : Py unit :=
  match items with
  | [] => mret ()
  | x :: items' => body x ;; for_each body items'
  end.

Definition display_books : Py unit :=
  bs ← get_books;
  for_each (λ book, print (book_line "" book)) bs.

(** ** main_menu *)

(** The menu reads lines from standard input. [stdin] holds the lines that
    are still to come, without their newline; [asked] lists the prompts
    that [input] has shown, in order. The lines written by [print] go to
    [stdout] of the state of the library, as before. *)
Record Console : Type := mkConsole {
  session : State;
  stdin : list string;
  asked : list string
}.

(** How a part of the menu ends: as a method does, or with the [EOFError]
    that [input] raises at the end of the input. [OutOfFuel] is the
    embedding's own: the loop was given fewer rounds than it needed. *)
Inductive io_outcome (A : Type) : Type :=
| Fin (r : outcome A)
| EOFError
| OutOfFuel.
Arguments Fin {A} r.
Arguments EOFError {A}.
Arguments OutOfFuel {A}.

Definition IO (A : Type) : Type := Console → io_outcome A * Console.

Definition IO_ret_def {A} (a : A) : IO A := λ c, (Fin (Ret a), c).

Definition IO_bind_def {A B} (k : A → IO B) (m : IO A) : IO B := λ c,
  match m c with
  | (Fin (Ret a), c') => k a c'
  | (Fin (Exc e), c') => (Fin (Exc e), c')
  | (Fin Untyped, c') => (Fin Untyped, c')
  | (EOFError, c') => (EOFError, c')
  | (OutOfFuel, c') => (OutOfFuel, c')
  end.

#[global] Instance IO_ret : MRet IO := @IO_ret_def.
#[global] Instance IO_bind : MBind IO := @IO_bind_def.
#[global] Instance IO_throw : MThrow exn IO := λ A e c, (Fin (Exc e), c).

(** A call of a method, or of [print], from the menu. *)
Definition call_py {A} (m : Py A) : IO A := λ c,
  let r := m (session c) in
  (Fin r.1, {| session := r.2; stdin := stdin c; asked := asked c |}).

(** [input(prompt)] *)
Definition input (prompt : string) : IO string := λ c,
  match stdin c with
  | [] => (EOFError, {| session := session c; stdin := [];
                        asked := asked c ++ [prompt] |})
  | line :: rest => (Fin (Ret line), {| session := session c; stdin := rest;
                                        asked := asked c ++ [prompt] |})
  end.

Definition out_of_fuel {A} : IO A := λ c, (OutOfFuel, c).

(** [library = Library()] *)
Definition new_library : Py unit := λ s,
  (Ret (), {| self := Library_init; stdout := stdout s; disk := disk s |}).

Definition newline : string := String "010" EmptyString.

Definition unknown_choice_msg : string := "Неверный выбор. Попробуйте еще раз.".

Section menu.

(** [int(s)] for a [str]: the number, or the message of the [ValueError].
    The built-in is not part of this program and is left open. *)
Variable py_int : string → Z + string.

Definition int (s : string) : IO Z :=
  match py_int s with
  | inl n => mret n
  | inr msg => mthrow (ValueError msg)
  end.

(** The [if] ... [elif] ... [else] of the loop body. The result tells
    whether the loop goes on: [false] is the [break] of choice 6. *)
Definition menu_choice (choice : string) : IO bool :=
  if bool_decide (choice = "1") then
    title ← input "Введите название книги: ";
    author ← input "Введите автора книги: ";
    year ← input "Введите год издания: ";
    y ← int year;
    call_py (add_book title author y) ;;
    mret true
  else if bool_decide (choice = "2") then
    text ← input "Введите ID книги для удаления: ";
    id ← int text;
    call_py (remove_book id) ;;
    mret true
  else if bool_decide (choice = "3") then
    search_term ← input "Введите название или автора для поиска: ";
    results ← call_py (search_books search_term);
    call_py (for_each (λ book, print (book_line "Найдено - " book)) results) ;;
    mret true
  else if bool_decide (choice = "4") then
    call_py display_books ;;
    mret true
  else if bool_decide (choice = "5") then
    text ← input "Введите ID книги для изменения статуса: ";
    id ← int text;
    new_status ← input "Введите новый статус (в наличии/выдана): ";
    call_py (change_status id new_status) ;;
    mret true
  else if bool_decide (choice = "6") then
    call_py (save_to_file "library.json") ;;
    mret false
  else
    call_py (print unknown_choice_msg) ;;
    mret true.

(** One round of the [while True] loop. *)
Definition menu_round : IO bool :=
  call_py (print (newline +:+ "1. Добавить книгу")) ;;
  call_py (print "2. Удалить книгу") ;;
  call_py (print "3. Поиск книги") ;;
  call_py (print "4. Отобразить все книги") ;;
  call_py (print "5. Изменить статус книги") ;;
  call_py (print "6. Сохранить и выйти") ;;
  choice ← input "Выберите действие: ";
  menu_choice choice.

(** [while True: ...], run for at most [fuel] rounds. *)
Fixpoint menu_loop (fuel : nat) : IO unit :=
  match fuel with
  | O => out_of_fuel
  | S fuel' =>
      again ← menu_round;
      if again : bool then menu_loop fuel' else mret ()
  end.

(** Every round that goes on has read a line, so one round more than
    there are lines is enough. *)
Definition main_menu : IO unit := λ c,
  (call_py new_library ;;
   call_py (load_from_file "library.json") ;;
   menu_loop (S (length (stdin c)))) c.

End menu.

(** * Vocabulary of the statements *)

(** ** States *)

(** The state [s] with another list of records, and with one more line of
    output. *)
Definition with_books (bs : list Book) (s : State) : State :=
  {| self := {| books := bs; next_id := next_id (self s) |};
     stdout := stdout s; disk := disk s |}.

Definition with_line (line : string) (s : State) : State :=
  {| self := self s; stdout := stdout s ++ [line]; disk := disk s |}.

(** ** Records and ids *)

(** Some record of [bs] carries [id]. *)
Definition has_id (id : Z) (bs : list Book) : Prop :=
  ∃ b, b ∈ bs ∧ book_id b = id.

(** The records of [bs] that do not carry [id], in their order. *)
Definition keep_others (id : Z) (bs : list Book) : list Book :=
  List.filter (λ book, negb (bool_decide (book_id book = id))) bs.

(** The lines that the two not-found paths print. *)
Definition remove_msg : string :=
  "Ошибка при удалении книги: " +:+ not_found_msg.

Definition status_msg : string :=
  "Ошибка при изменении статуса книги: " +:+ not_found_msg.

(** [n] is one more than the largest id of [bs], or 1 when [bs] is
    empty. *)
Definition one_past_max_id (bs : list Book) (n : Z) : Prop :=
  match bs with
  | [] => n = 1
  | _ => (∃ b, b ∈ bs ∧ n = book_id b + 1) ∧ ∀ b, b ∈ bs → book_id b < n
  end.

(** ** Sequences of calls *)

Inductive call : Type :=
| Add (title author : string) (year : Z)
| Remove (id : Z).

(** The id that the last [add_book] gave out: the one of the record it
    appended. *)
Definition assigned_id (s : State) : Z :=
  default 0 (book_id <$> last (books (self s))).

(** Runs the calls in order on one catalog and lists, in call order, the
    ids given out by the [Add] calls. *)
Fixpoint run_calls (cs : list call) (s : State) : list Z * State :=
  match cs with
  | [] => ([], s)
  | Add t a y :: cs' =>
      let s' := (add_book t a y s).2 in
      let r := run_calls cs' s' in
      (assigned_id s' :: r.1, r.2)
  | Remove id :: cs' => run_calls cs' (remove_book id s).2
  end.

(** ** Search terms *)

(** [t] occurs in [s]: some text before it and some text after it make up
    [s]. *)
Definition substring (t s : string) : Prop :=
  ∃ pre post, s = pre +:+ t +:+ post.

(** The records a search for [term] is to return. *)
Definition matches (term : string) (b : Book) : Prop :=
  substring term (title b) ∨ substring term (author b) ∨
  term = str_int (year b).

(** ** Documents *)

(** The keys that [load_from_file] reads with [data[key]]. *)
Definition required_keys : list string := ["book_id"; "title"; "author"; "year"].

Definition is_object (data : json) : Prop :=
  match data with JObj _ => True | _ => False end.

(** [data] is an object without one of the required keys. *)
Definition lacks_key (data : json) : Prop :=
  ∃ fields k, data = JObj fields ∧ k ∈ required_keys ∧ dict_lookup fields k = None.

Definition is_missing_key (e : exn) : Prop :=
  ∃ k, k ∈ required_keys ∧ e = KeyError k.

Definition is_type_error (e : exn) : Prop := ∃ msg, e = TypeError msg.

(** The arguments that the comprehension of [load_from_file] reads off
    the dict of a record. *)
Definition row_of (b : Book) : row :=
  (JInt (book_id b), JStr (title b), JStr (author b), JInt (year b),
   JStr (status b)).

(** ** Catalogs in good order *)

(** The ids are pairwise distinct, positive, and below [next_id]. *)
Definition well_formed (lib : Library) : Prop :=
  NoDup (book_id <$> books lib) ∧
  (∀ b, b ∈ books lib → 1 ≤ book_id b < next_id lib) ∧
  1 ≤ next_id lib.

(** The calls that do not read a file. *)
Inductive method_call : Type :=
| CallAdd (title author : string) (year : Z)
| CallRemove (id : Z)
| CallSearch (search_term : string)
| CallDisplay
| CallChangeStatus (id : Z) (new_status : string)
| CallSave (filename : string).

Definition run_method (m : method_call) : Py unit :=
  match m with
  | CallAdd t a y => add_book t a y
  | CallRemove id => remove_book id
  | CallSearch term => search_books term ;; mret ()
  | CallDisplay => display_books
  | CallChangeStatus id new_status => change_status id new_status
  | CallSave filename => save_to_file filename
  end.

(** The dict of a record in a file that has no [status] key. *)
Definition dict_without_status (b : Book) : json :=
  JObj [ ("book_id", JInt (book_id b));
         ("title", JStr (title b));
         ("author", JStr (author b));
         ("year", JInt (year b)) ].

(** What the menu leaves on the disk when it ends through choice 6. *)
Definition saved_catalog (lib : Library) : file :=
  Document (JArr (to_dict <$> books lib)).

(** The file [library.json] is absent, or empty, or holds the records of
    a catalog in good order. *)
Definition good_file (d : gmap string file) : Prop :=
  d !! "library.json" = None ∨
  d !! "library.json" = Some ZeroLength ∨
  ∃ bs, d !! "library.json" = Some (Document (JArr (to_dict <$> bs))) ∧
        NoDup (book_id <$> bs) ∧ ∀ b, b ∈ bs → 1 ≤ book_id b.

(** The exceptions that building a row can raise; no clause of
    [load_from_file] catches them. *)
Definition from_row (e : exn) : Prop :=
  match e with
  | KeyError _ | TypeError _ | AttributeError _ => True
  | _ => False
  end.

(** ** Sessions of the menu *)

(** An exception, of the program or [EOFError], left the computation. *)
Definition crashed {A} (o : io_outcome A) : Prop :=
  (∃ e, o = Fin (Exc e)) ∨ o = EOFError.

(** From [c] to [c'] the disk was not written, a catalog in good order
    stayed in good order, and lines were read from the input, none put
    back. *)
Definition carries_on (c c' : Console) : Prop :=
  disk (session c') = disk (session c) ∧
  (well_formed (self (session c)) → well_formed (self (session c'))) ∧
  stdin c' `suffix_of` stdin c.

(** A method that returns normally, does not write the disk and keeps a
    catalog in good order. *)
Definition quiet {A} (m : Py A) : Prop :=
  ∀ s, ∃ a s', m s = (Ret a, s') ∧ disk s' = disk s ∧
               (well_formed (self s) → well_formed (self s')).

(** A part of the menu that either returns a value with the property
    [Q] or crashes, and in both cases carries on as above. *)
Definition tame {A} (Q : A → Prop) (m : IO A) : Prop :=
  ∀ c, ∃ o c', m c = (o, c') ∧ carries_on c c' ∧
               ((∃ a, o = Fin (Ret a) ∧ Q a) ∨ crashed o).

(** A stand-in for [int] in the examples: it reads numerals made of
    digits, with [-] in front for a negative number, as [int] does, and
    refuses every other text. *)
Definition digit_value (c : ascii) : option Z :=
  let n := Z.of_nat (nat_of_ascii c) in
  if bool_decide (48 ≤ n ≤ 57) then Some (n - 48) else None.

Fixpoint digits_value (acc : Z) (s : string) : option Z :=
  match s with
  | EmptyString => Some acc
  | String c s' =>
      match digit_value c with
      | Some d => digits_value (10 * acc + d) s'
      | None => None
      end
  end.

Definition int_of_digits (s : string) : Z + string :=
  let refuse := inr ("invalid literal for int() with base 10: '" +:+ s +:+ "'") in
  match s with
  | EmptyString => refuse
  | String "-" EmptyString => refuse
  | String "-" s' => from_option (λ n, inl (- n)) refuse (digits_value 0 s')
  | _ => from_option inl refuse (digits_value 0 s)
  end.

(** * Properties *)

(** ** Running method bodies *)

Ltac py_step :=
  unfold mbind, mret, mthrow, Py_bind, Py_ret, Py_throw, Py_bind_def,
    Py_ret_def, untyped, get_books, get_next_id, set_books, set_next_id,
    print, try_except; simpl.

(** ** Removal *)

Lemma existsb_has_id id bs :
  existsb (λ book, bool_decide (book_id book = id)) bs = true ↔ has_id id bs.
Proof.
  rewrite existsb_exists. unfold has_id. split.
  - intros (b & Hin & Hb). exists b. split; [by apply list_elem_of_In |].
    by apply bool_decide_eq_true in Hb.
  - intros (b & Hin & Hb). exists b. split; [by apply list_elem_of_In |].
    by apply bool_decide_eq_true.
Qed.

#[global] Instance has_id_dec id bs : Decision (has_id id bs).
Proof.
  refine (cast_if (decide (existsb (λ book, bool_decide (book_id book = id)) bs
                           = true)));
    by rewrite <- existsb_has_id.
Defined.

Lemma remove_book_found id s :
  has_id id (books (self s)) →
  remove_book id s = (Ret (), with_books (keep_others id (books (self s))) s).
Proof.
  intros Hid. unfold remove_book. py_step.
  assert (existsb (λ book, bool_decide (book_id book = id)) (books (self s)) = true)
    as -> by by apply existsb_has_id.
  rewrite bool_decide_eq_false_2; [done |].
  destruct Hid as (b & Hin & _). intros Hlen.
  apply nil_length_inv in Hlen. rewrite Hlen in Hin. by apply elem_of_nil in Hin.
Qed.

Lemma remove_book_missing id s :
  ¬ has_id id (books (self s)) →
  remove_book id s = (Ret (), with_line remove_msg s).
Proof.
  intros Hid. unfold remove_book. py_step.
  assert (existsb (λ book, bool_decide (book_id book = id)) (books (self s)) = false)
    as ->.
  { apply not_true_is_false. by rewrite existsb_has_id. }
  rewrite orb_true_r. simpl. done.
Qed.

Lemma elem_of_keep_others id bs b :
  b ∈ keep_others id bs ↔ b ∈ bs ∧ book_id b ≠ id.
Proof.
  unfold keep_others. rewrite !list_elem_of_In, filter_In.
  rewrite negb_true_iff, bool_decide_eq_false. done.
Qed.

Lemma keep_others_none id bs :
  ¬ has_id id bs → keep_others id bs = bs.
Proof.
  unfold has_id, keep_others. induction bs as [|b bs IH]; intros Hno; [done |].
  simpl. rewrite bool_decide_eq_false_2.
  - simpl. f_equal. apply IH. intros (x & Hx & Hid). apply Hno.
    exists x. split; [by right | done].
  - intros Hb. apply Hno. exists b. split; [by left | done].
Qed.

Lemma keep_others_app id l1 l2 :
  keep_others id (l1 ++ l2) = keep_others id l1 ++ keep_others id l2.
Proof. apply List.filter_app. Qed.

Lemma not_has_id_keep_others id bs : ¬ has_id id (keep_others id bs).
Proof. intros (b & Hin & Hid). apply elem_of_keep_others in Hin. tauto. Qed.

(** With distinct ids, the record that carries [id] splits the list in two
    parts that do not mention [id]. *)
Lemma distinct_ids_split id bs :
  NoDup (book_id <$> bs) → has_id id bs →
  ∃ pre b post, bs = pre ++ b :: post ∧ book_id b = id ∧
    ¬ has_id id pre ∧ ¬ has_id id post.
Proof.
  intros Hnd (b & Hin & Hid).
  apply list_elem_of_split in Hin as (pre & post & ->).
  exists pre, b, post. split; [done |]. split; [done |].
  rewrite fmap_app, fmap_cons in Hnd.
  apply NoDup_app in Hnd as (_ & Hpre & Hpost).
  apply NoDup_cons in Hpost as (Hpost & _).
  split.
  - intros (x & Hx & Hxid). apply (Hpre (book_id x)).
    + by apply list_elem_of_fmap_2.
    + rewrite Hxid, <- Hid. by left.
  - intros (x & Hx & Hxid). apply Hpost. rewrite Hid, <- Hxid.
    by apply list_elem_of_fmap_2.
Qed.

(** C6. In a catalog whose ids are pairwise distinct, [remove_book id]
    returns normally and leaves [next_id] and the disk alone. When a record
    carries [id], exactly that record leaves the list: the records before
    it and after it stay, in their order. When none does, the catalog is
    unchanged and the not-found message is printed. A second removal of the
    same id always takes the not-found path and changes nothing but the
    output. *)
Theorem remove_book_distinct_ids (s : State) (id : Z) :
  NoDup (book_id <$> books (self s)) →
  let r1 := remove_book id s in
  let r2 := remove_book id r1.2 in
  r1.1 = Ret () ∧
  next_id (self r1.2) = next_id (self s) ∧
  disk r1.2 = disk s ∧
  (has_id id (books (self s)) →
     ∃ pre b post,
       books (self s) = pre ++ b :: post ∧ book_id b = id ∧
       ¬ has_id id pre ∧ ¬ has_id id post ∧
       books (self r1.2) = pre ++ post ∧
       stdout r1.2 = stdout s) ∧
  (¬ has_id id (books (self s)) →
     self r1.2 = self s ∧ stdout r1.2 = stdout s ++ [remove_msg]) ∧
  r2.1 = Ret () ∧
  self r2.2 = self r1.2 ∧
  stdout r2.2 = stdout r1.2 ++ [remove_msg] ∧
  disk r2.2 = disk r1.2.
Proof.
  intros Hnd r1 r2.
  assert (¬ has_id id (books (self r1.2))) as Hgone.
  { subst r1. destruct (decide (has_id id (books (self s)))) as [Hyes|Hno].
    - rewrite remove_book_found by done. apply not_has_id_keep_others.
    - by rewrite remove_book_missing. }
  assert (r2 = (Ret (), with_line remove_msg r1.2)) as Hr2
    by by apply remove_book_missing.
  rewrite Hr2. clear Hr2 r2. subst r1.
  destruct (decide (has_id id (books (self s)))) as [Hyes|Hno].
  - rewrite remove_book_found by done. simpl.
    repeat split; try done.
    intros _. destruct (distinct_ids_split id _ Hnd Hyes)
      as (pre & b & post & Hbs & Hb & Hpre & Hpost).
    exists pre, b, post. repeat split; try done.
    rewrite Hbs, keep_others_app. change (b :: post) with ([b] ++ post).
    rewrite keep_others_app.
    rewrite (keep_others_none id pre), (keep_others_none id post) by done.
    unfold keep_others. simpl. by rewrite bool_decide_eq_true_2.
  - rewrite remove_book_missing by done. simpl.
    repeat split; try done.
Qed.

Lemma remove_book_distinct_ids_witness :
  let s := {| self := {| books := [mkBook 1 "A" "X" 2000 "в наличии";
                                  mkBook 2 "B" "Y" 2001 "в наличии"];
                         next_id := 3 |};
              stdout := []; disk := ∅ |} in
  NoDup (book_id <$> books (self s)) ∧
  books (self (remove_book 1 s).2) = [mkBook 2 "B" "Y" 2001 "в наличии"] ∧
  self (remove_book 1 (remove_book 1 s).2).2 = self (remove_book 1 s).2.
Proof.
  intros s.
  assert (NoDup (book_id <$> books (self s))) as Hnd.
  { simpl. apply NoDup_cons. split; [| apply NoDup_singleton].
    intros Hin. apply list_elem_of_singleton in Hin. discriminate Hin. }
  split; [exact Hnd |].
  destruct (remove_book_distinct_ids s 1 Hnd)
    as (_ & _ & _ & _ & _ & _ & Hself & _).
  split; [reflexivity | exact Hself].
Defined.

(** ** Identifiers *)

Lemma add_book_run t a y s :
  add_book t a y s =
  (Ret (), {| self := {| books := books (self s) ++
                           [mkBook (next_id (self s)) t a y default_status];
                         next_id := next_id (self s) + 1 |};
              stdout := stdout s; disk := disk s |}).
Proof. reflexivity. Qed.

Lemma remove_book_next_id id s :
  next_id (self (remove_book id s).2) = next_id (self s).
Proof.
  destruct (decide (has_id id (books (self s)))) as [Hyes|Hno].
  - by rewrite remove_book_found.
  - by rewrite remove_book_missing.
Qed.

Lemma run_calls_ids cs : ∀ s,
  StronglySorted Z.lt (run_calls cs s).1 ∧
  Forall (λ i, next_id (self s) ≤ i) (run_calls cs s).1.
Proof.
  induction cs as [|[t a y|id] cs IH]; intros s; cbn [run_calls].
  - split; constructor.
  - rewrite add_book_run. cbn [fst snd].
    set (s' := {| self := _ |}). destruct (IH s') as [Hsorted Hlow].
    unfold assigned_id. simpl. rewrite last_snoc. simpl.
    split.
    + constructor; [done |]. eapply Forall_impl; [exact Hlow |].
      simpl. intros i Hi. lia.
    + constructor; [lia |]. eapply Forall_impl; [exact Hlow |].
      simpl. intros i Hi. lia.
  - destruct (IH (remove_book id s).2) as [Hsorted Hlow].
    split; [done |]. by rewrite remove_book_next_id in Hlow.
Qed.

Lemma StronglySorted_lt_NoDup (l : list Z) : StronglySorted Z.lt l → NoDup l.
Proof.
  induction 1 as [|x l _ IH Hx]; constructor; [| done].
  intros Hin. rewrite Forall_forall in Hx. specialize (Hx x Hin). lia.
Qed.

(** C2. Whatever calls of [add_book] and [remove_book] are made on a fresh
    catalog, and in whatever order, the ids given out by the [add_book]
    calls increase strictly in call order, so that no two are equal, and
    no call of [remove_book] changes [next_id]. *)
Theorem add_book_ids_increase (cs : list call) (out : list string)
    (d : gmap string file) :
  let ids := (run_calls cs {| self := Library_init; stdout := out; disk := d |}).1 in
  StronglySorted Z.lt ids ∧
  NoDup ids ∧
  Forall (λ i, 1 ≤ i) ids ∧
  ∀ (s : State) (id : Z), next_id (self (remove_book id s).2) = next_id (self s).
Proof.
  intros ids. subst ids.
  destruct (run_calls_ids cs {| self := Library_init; stdout := out; disk := d |})
    as [Hsorted Hlow].
  split; [done |]. split; [by apply StronglySorted_lt_NoDup |].
  split; [done |]. intros s id. apply remove_book_next_id.
Qed.

(** ** Status changes *)

Lemma has_id_cons id b bs :
  has_id id (b :: bs) ↔ book_id b = id ∨ has_id id bs.
Proof.
  unfold has_id. split.
  - intros (x & Hx & Hid). apply elem_of_cons in Hx as [->|Hx]; eauto.
  - intros [Hb|(x & Hx & Hid)].
    + exists b. split; [by left | done].
    + exists x. split; [by right | done].
Qed.

Lemma not_has_id_nil id : ¬ has_id id [].
Proof. intros (x & Hx & _). by apply elem_of_nil in Hx. Qed.

(** The first record that carries [id]. *)
Lemma first_match_split id bs :
  has_id id bs →
  ∃ pre b post, bs = pre ++ b :: post ∧ book_id b = id ∧ ¬ has_id id pre.
Proof.
  induction bs as [|b0 bs IH]; intros Hid.
  - by apply not_has_id_nil in Hid.
  - destruct (decide (book_id b0 = id)) as [Hb0|Hb0].
    + exists [], b0, bs. split; [done |]. split; [done |]. apply not_has_id_nil.
    + apply has_id_cons in Hid as [Hid|Hid]; [done |].
      destruct (IH Hid) as (pre & b & post & -> & Hb & Hpre).
      exists (b0 :: pre), b, post. split; [done |]. split; [done |].
      rewrite has_id_cons. tauto.
Qed.

(** The loop skips the records that do not carry [id] and rewrites the
    first one that does, at its own position. *)
Lemma change_status_loop_hit id new_status pre b post : ∀ i s,
  ¬ has_id id pre → book_id b = id →
  change_status_loop id new_status i (pre ++ b :: post) s =
  (Ret (), with_books (<[(i + length pre)%nat := set_status new_status b]>
                         (books (self s))) s).
Proof.
  induction pre as [|b0 pre IH]; intros i s Hpre Hb; simpl.
  - rewrite bool_decide_eq_true_2 by done. py_step.
    by rewrite Nat.add_0_r.
  - rewrite has_id_cons in Hpre.
    rewrite bool_decide_eq_false_2 by tauto.
    rewrite IH by tauto. do 3 f_equal. lia.
Qed.

Lemma change_status_loop_miss id new_status rest : ∀ i s,
  ¬ has_id id rest →
  change_status_loop id new_status i rest s = (Exc (ValueError not_found_msg), s).
Proof.
  induction rest as [|b0 rest IH]; intros i s Hno; simpl; [done |].
  rewrite has_id_cons in Hno.
  rewrite bool_decide_eq_false_2 by tauto. apply IH. tauto.
Qed.

(** C7. When some record of the catalog carries [id], [change_status id
    new_status] returns normally and rewrites the status of the first such
    record and of no other; that record keeps its id, title, author and
    year, every other record is as before and in the same place, and
    [next_id], the output and the disk are unchanged. *)
Theorem change_status_first_match (s : State) (id : Z) (new_status : string) :
  has_id id (books (self s)) →
  ∃ pre b post,
    books (self s) = pre ++ b :: post ∧ book_id b = id ∧ ¬ has_id id pre ∧
    change_status id new_status s =
    (Ret (),
     {| self := {| books := pre ++ mkBook (book_id b) (title b) (author b)
                                     (year b) new_status :: post;
                   next_id := next_id (self s) |};
        stdout := stdout s; disk := disk s |}).
Proof.
  intros Hid.
  destruct (first_match_split id _ Hid) as (pre & b & post & Hbs & Hb & Hpre).
  exists pre, b, post. split; [done |]. split; [done |]. split; [done |].
  unfold change_status. py_step. rewrite Hbs at 1.
  rewrite change_status_loop_hit by done. simpl.
  rewrite Hbs. unfold with_books. do 3 f_equal.
  replace (length pre) with (length pre + 0)%nat by lia.
  by rewrite insert_app_r.
Qed.

Lemma change_status_first_match_witness :
  let s := {| self := {| books := [mkBook 1 "A" "X" 2000 "в наличии";
                                  mkBook 2 "B" "Y" 2001 "в наличии"];
                         next_id := 3 |};
              stdout := []; disk := ∅ |} in
  has_id 2 (books (self s)) ∧
  ∃ pre b post,
    books (self s) = pre ++ b :: post ∧ book_id b = 2 ∧ ¬ has_id 2 pre ∧
    change_status 2 "issued" s =
    (Ret (),
     {| self := {| books := pre ++ mkBook (book_id b) (title b) (author b)
                                     (year b) "issued" :: post;
                   next_id := next_id (self s) |};
        stdout := stdout s; disk := disk s |}).
Proof.
  intros s.
  assert (has_id 2 (books (self s))) as Hid.
  { exists (mkBook 2 "B" "Y" 2001 "в наличии"). split; [| reflexivity].
    simpl. right. left. }
  split; [exact Hid |].
  exact (change_status_first_match s 2 "issued" Hid).
Defined.

(** Without a record that carries [id], the call prints the not-found
    message and changes nothing else. *)
Lemma change_status_missing (s : State) (id : Z) (new_status : string) :
  ¬ has_id id (books (self s)) →
  change_status id new_status s = (Ret (), with_line status_msg s).
Proof.
  intros Hno. unfold change_status. py_step.
  by rewrite change_status_loop_miss.
Qed.

(** ** Search *)

Lemma startswith_spec p : ∀ s,
  startswith s p = true ↔ ∃ post, s = p +:+ post.
Proof.
  induction p as [|c p IH]; intros s.
  - split; [intros _; by exists s | by destruct s].
  - destruct s as [|d s]; simpl.
    + split; [done | intros [post Hpost]; discriminate Hpost].
    + rewrite andb_true_iff, bool_decide_eq_true, IH. split.
      * intros [-> [post ->]]. by exists post.
      * intros [post Hpost]. injection Hpost as -> ->. split; [done | by exists post].
Qed.

Lemma str_in_unfold needle hay :
  str_in needle hay =
  startswith hay needle ||
  match hay with
  | EmptyString => false
  | String _ hay' => str_in needle hay'
  end.
Proof. by destruct hay. Qed.

Lemma str_in_spec needle hay :
  str_in needle hay = true ↔ substring needle hay.
Proof.
  unfold substring. split.
  - induction hay as [|c hay IH]; rewrite str_in_unfold, orb_true_iff.
    + intros [Hs|Hf]; [| done].
      apply startswith_spec in Hs as [post Hpost]. by exists "", post.
    + intros [Hs|Hrest].
      * apply startswith_spec in Hs as [post Hpost]. by exists "", post.
      * destruct (IH Hrest) as (pre & post & ->). by exists (String c pre), post.
  - intros (pre & post & ->). induction pre as [|c pre IH].
    + rewrite str_in_unfold, orb_true_iff. left.
      apply startswith_spec. by exists post.
    + rewrite str_in_unfold, orb_true_iff. by right.
Qed.

#[global] Instance substring_dec t s : Decision (substring t s).
Proof.
  refine (cast_if (decide (str_in t s = true))); by rewrite <- str_in_spec.
Defined.

#[global] Instance matches_dec term b : Decision (matches term b).
Proof. unfold matches. apply _. Defined.

Lemma List_filter_decide {A} (f : A → bool) (P : A → Prop)
    `{∀ x, Decision (P x)} (l : list A) :
  (∀ x, f x = true ↔ P x) → List.filter f l = filter P l.
Proof.
  intros Hf. induction l as [|x l IH]; [done |].
  simpl. rewrite filter_cons, IH.
  destruct (decide (P x)) as [HP|HP].
  - apply Hf in HP. by rewrite HP.
  - destruct (f x) eqn:Hfx; [| done]. by apply Hf in Hfx.
Qed.

(** The decimal numeral of the year is the one the search compares with:
    different years have different numerals. *)
Lemma str_int_inj (m n : Z) : str_int m = str_int n → m = n.
Proof. apply pretty_Z_inj. Qed.

(** C5. [search_books term] changes nothing and returns, in catalog
    order, exactly the records whose title contains [term], or whose
    author contains [term], or whose year has [term] as its decimal
    numeral; the comparisons are on the characters as they are. With the
    empty term every record is returned. *)
Theorem search_books_matches (s : State) (term : string) :
  search_books term s = (Ret (filter (matches term) (books (self s))), s) ∧
  (∀ b, b ∈ filter (matches term) (books (self s)) ↔
        b ∈ books (self s) ∧
        ((∃ pre post, title b = pre +:+ term +:+ post) ∨
         (∃ pre post, author b = pre +:+ term +:+ post) ∨
         term = pretty (year b))) ∧
  search_books "" s = (Ret (books (self s)), s).
Proof.
  assert (∀ t, search_books t s = (Ret (filter (matches t) (books (self s))), s))
    as Hsearch.
  { intros t. unfold search_books. py_step. do 2 f_equal.
    apply List_filter_decide. intros b. unfold matches.
    rewrite !orb_true_iff, !str_in_spec, bool_decide_eq_true. tauto. }
  split; [apply Hsearch |]. split.
  - intros b. rewrite list_elem_of_filter. unfold matches, substring, str_int. tauto.
  - rewrite Hsearch. do 2 f_equal. clear Hsearch.
    induction (books (self s)) as [|b bs IH]; [done |].
    rewrite filter_cons_True; [by rewrite IH |].
    left. by exists "", (title b).
Qed.

(** ** Loading: the three short paths *)

Ltac load_step H :=
  unfold load_from_file, try_except, open_r, os_path_exists, st_size_is_zero;
  unfold mbind, mret, Py_bind, Py_ret, Py_bind_def, Py_ret_def;
  rewrite ?H; simpl; rewrite ?H; simpl.

Lemma load_from_file_absent (s : State) (filename : string) :
  disk s !! filename = None →
  load_from_file filename s = (Ret (), with_line missing_msg s).
Proof. intros H. by load_step H. Qed.

Lemma load_from_file_zero_length (s : State) (filename : string) :
  disk s !! filename = Some ZeroLength →
  load_from_file filename s = (Ret (), with_line empty_msg s).
Proof.
  intros H. by load_step H.
Qed.

(** X19. Whatever the catalog holds, loading a file of text that the
    parser of [json] rejects returns normally, prints the format message,
    and leaves the records, [next_id] and the disk as they were. *)
Theorem load_from_file_malformed (s : State) (filename msg : string) :
  disk s !! filename = Some (Malformed msg) →
  load_from_file filename s =
  (Ret (), {| self := self s; stdout := stdout s ++ [format_msg]; disk := disk s |}).
Proof.
  intros H. by load_step H.
Qed.

Lemma load_from_file_malformed_witness :
  let s := {| self := {| books := [mkBook 1 "A" "X" 2000 "в наличии"];
                         next_id := 2 |};
              stdout := [];
              disk := {[ "library.json" := Malformed "Expecting value" ]} |} in
  disk s !! "library.json" = Some (Malformed "Expecting value") ∧
  load_from_file "library.json" s =
  (Ret (), {| self := self s; stdout := [format_msg]; disk := disk s |}).
Proof.
  intros s.
  assert (disk s !! "library.json" = Some (Malformed "Expecting value")) as H
    by reflexivity.
  split; [exact H |].
  exact (load_from_file_malformed s "library.json" "Expecting value" H).
Defined.

(** C3. The handler for a file of the wrong format misses a case. A
    file whose bytes are not UTF-8 cannot be parsed as JSON either, but
    reading it raises [UnicodeDecodeError], which is not a
    [JSONDecodeError] and which no clause of [load_from_file] catches:
    the exception leaves the call, and the format message is not
    printed. The catalog, the output and the disk are as they were. *)
Theorem load_from_file_undecodable (s : State) (filename msg : string) :
  disk s !! filename = Some (Undecodable msg) →
  load_from_file filename s = (Exc (UnicodeDecodeError msg), s) ∧
  format_msg ∉ drop (length (stdout s)) (stdout (load_from_file filename s).2).
Proof.
  intros H.
  assert (load_from_file filename s = (Exc (UnicodeDecodeError msg), s)) as ->
    by by load_step H.
  split; [done |]. cbn [snd]. rewrite drop_all. apply not_elem_of_nil.
Qed.

Lemma load_from_file_undecodable_witness :
  let msg := "'utf-8' codec can't decode byte 0xff in position 0: invalid start byte" in
  let s := {| self := {| books := [mkBook 1 "A" "X" 2000 "в наличии"];
                         next_id := 2 |};
              stdout := [];
              disk := {[ "library.json" := Undecodable msg ]} |} in
  disk s !! "library.json" = Some (Undecodable msg) ∧
  load_from_file "library.json" s = (Exc (UnicodeDecodeError msg), s) ∧
  format_msg ∉ drop (length (stdout s)) (stdout (load_from_file "library.json" s).2).
Proof.
  intros msg s.
  assert (disk s !! "library.json" = Some (Undecodable msg)) as H by reflexivity.
  split; [exact H |].
  exact (load_from_file_undecodable s "library.json" msg H).
Defined.

(** C4, as the code has it. Loading from a path with no file, or with a
    file of length zero, returns normally, prints a message (which one
    depends on the case) and leaves the records, [next_id] and the disk
    as they were; so a catalog that was just created stays empty with
    [next_id] equal to 1. *)
Theorem load_from_file_nothing_to_read (s : State) (filename : string) :
  disk s !! filename = None ∨ disk s !! filename = Some ZeroLength →
  ∃ line,
    load_from_file filename s =
    (Ret (), {| self := self s; stdout := stdout s ++ [line]; disk := disk s |}) ∧
    (line = missing_msg ∨ line = empty_msg) ∧
    (self s = Library_init →
     books (self (load_from_file filename s).2) = [] ∧
     next_id (self (load_from_file filename s).2) = 1).
Proof.
  intros [H|H].
  - exists missing_msg. rewrite load_from_file_absent by done.
    split; [done |]. split; [by left |]. simpl. by intros ->.
  - exists empty_msg. rewrite load_from_file_zero_length by done.
    split; [done |]. split; [by right |]. simpl. by intros ->.
Qed.

Lemma load_from_file_nothing_to_read_witness :
  let s := {| self := Library_init; stdout := [];
              disk := {[ "library.json" := ZeroLength ]} |} in
  (disk s !! "library.json" = None ∨ disk s !! "library.json" = Some ZeroLength) ∧
  ∃ line,
    load_from_file "library.json" s =
    (Ret (), {| self := self s; stdout := stdout s ++ [line]; disk := disk s |}) ∧
    (line = missing_msg ∨ line = empty_msg) ∧
    (self s = Library_init →
     books (self (load_from_file "library.json" s).2) = [] ∧
     next_id (self (load_from_file "library.json" s).2) = 1).
Proof.
  intros s.
  assert (disk s !! "library.json" = None ∨
          disk s !! "library.json" = Some ZeroLength) as H by (right; reflexivity).
  split; [exact H |].
  exact (load_from_file_nothing_to_read s "library.json" H).
Defined.

(** C4, as the specification words it, fails: a catalog that holds a
    record still holds it, with [next_id] equal to 2, after loading from a
    path with no file, and likewise after loading a file of length zero. *)
Lemma load_from_file_does_not_empty :
  let s := {| self := {| books := [mkBook 1 "A" "X" 2000 "в наличии"];
                         next_id := 2 |};
              stdout := [];
              disk := {[ "empty.json" := ZeroLength ]} |} in
  disk s !! "library.json" = None ∧
  disk s !! "empty.json" = Some ZeroLength ∧
  books (self (load_from_file "library.json" s).2) ≠ [] ∧
  next_id (self (load_from_file "library.json" s).2) ≠ 1 ∧
  books (self (load_from_file "empty.json" s).2) ≠ [] ∧
  next_id (self (load_from_file "empty.json" s).2) ≠ 1.
Proof. vm_compute. repeat split; discriminate. Qed.

(** ** Loading a document *)

Lemma load_row_object fields s :
  (∃ r, load_row (JObj fields) s = (Ret r, s) ∧
        ∀ k, k ∈ required_keys → dict_lookup fields k ≠ None) ∨
  (∃ e, load_row (JObj fields) s = (Exc e, s) ∧ is_missing_key e).
Proof.
  unfold load_row, getitem, get_method, is_missing_key, required_keys.
  unfold mbind, mret, mthrow, Py_bind, Py_ret, Py_throw, Py_bind_def, Py_ret_def.
  destruct (dict_lookup fields "book_id") as [i|] eqn:Hi;
    [| right; eexists; split; [done |]; eexists; split; [| done]; set_solver].
  destruct (dict_lookup fields "title") as [t|] eqn:Ht;
    [| right; eexists; split; [done |]; eexists; split; [| done]; set_solver].
  destruct (dict_lookup fields "author") as [a|] eqn:Ha;
    [| right; eexists; split; [done |]; eexists; split; [| done]; set_solver].
  destruct (dict_lookup fields "year") as [y|] eqn:Hy;
    [| right; eexists; split; [done |]; eexists; split; [| done]; set_solver].
  left. eexists. split; [done |].
  intros k Hk. repeat (apply elem_of_cons in Hk as [->|Hk]; [congruence |]).
  by apply elem_of_nil in Hk.
Qed.

Lemma load_row_other data s :
  ¬ is_object data → ∃ e, load_row data s = (Exc e, s) ∧ is_type_error e.
Proof.
  intros Hobj. unfold is_type_error.
  destruct data; try (by eexists; split; [reflexivity | eexists]).
  by destruct Hobj.
Qed.

Lemma is_object_dec data : is_object data ∨ ¬ is_object data.
Proof. destruct data; simpl; tauto. Qed.

Lemma comprehension_cons {A B} (f : A → Py B) x items s :
  comprehension f (x :: items) s =
  match f x s with
  | (Ret y, s') =>
      match comprehension f items s' with
      | (Ret ys, s'') => (Ret (y :: ys), s'')
      | (Exc e, s'') => (Exc e, s'')
      | (Untyped, s'') => (Untyped, s'')
      end
  | (Exc e, s') => (Exc e, s')
  | (Untyped, s') => (Untyped, s')
  end.
Proof.
  simpl. unfold mbind, mret, Py_bind, Py_ret, Py_bind_def, Py_ret_def.
  destruct (f x s) as [[y| |] s']; [| done | done].
  by destruct (comprehension f items s') as [[ys| |] s''].
Qed.

(** A row that cannot be built stops the comprehension with its
    exception, whatever the rows before it hold. *)
Lemma comprehension_load_row_fails items s :
  (∃ data, data ∈ items ∧ lacks_key data) →
  ∃ e, comprehension load_row items s = (Exc e, s) ∧
       (is_missing_key e ∨ is_type_error e) ∧
       (Forall is_object items → is_missing_key e).
Proof.
  induction items as [|x items IH]; intros (data & Hin & Hlack).
  - by apply elem_of_nil in Hin.
  - rewrite comprehension_cons.
    destruct (is_object_dec x) as [Hobj|Hobj].
    + destruct x as [| | | | | |fields]; try done.
      destruct (load_row_object fields s) as [(r & -> & Hall)|(e & -> & He)].
      * apply elem_of_cons in Hin as [->|Hin].
        { destruct Hlack as (fields' & k & [= <-] & Hk & Hnone).
          by destruct (Hall k Hk). }
        destruct IH as (e & -> & He & Hobjs); [by exists data |].
        exists e. split; [done |]. split; [done |].
        intros Hforall. apply Hobjs. by apply Forall_cons in Hforall as [_ ?].
      * exists e. split; [done |]. split; [by left | done].
    + destruct (load_row_other x s Hobj) as (e & -> & He).
      exists e. split; [done |]. split; [by right |].
      intros Hforall. by apply Forall_cons in Hforall as [? _].
Qed.

(** C9. When the file holds a JSON array and some object of the array
    lacks one of the keys [book_id], [title], [author], [year], the call
    does not return: an exception leaves it, uncaught, and the records,
    [next_id], the output and the disk are as they were. In an array of
    objects that exception is the [KeyError] of one of the four keys; an
    item that is not an object, met before the faulty object, raises a
    [TypeError] instead. *)
Theorem load_from_file_missing_key (s : State) (filename : string)
    (items : list json) :
  disk s !! filename = Some (Document (JArr items)) →
  (∃ data, data ∈ items ∧ lacks_key data) →
  ∃ e, load_from_file filename s = (Exc e, s) ∧
       (is_missing_key e ∨ is_type_error e) ∧
       (Forall is_object items → is_missing_key e).
Proof.
  intros H Hlack.
  destruct (comprehension_load_row_fails items s Hlack) as (e & Hrun & He & Hobjs).
  exists e. split; [| done].
  load_step H. unfold json_load, iter.
  unfold mbind, mret, Py_bind, Py_ret, Py_bind_def, Py_ret_def. rewrite Hrun.
  destruct He as [(k & _ & ->)|(msg & ->)]; reflexivity.
Qed.

Lemma load_from_file_missing_key_witness :
  let items := [JObj [("book_id", JInt 1); ("title", JStr "A");
                      ("author", JStr "X"); ("year", JInt 2000)];
                JObj [("book_id", JInt 2); ("title", JStr "B");
                      ("year", JInt 2001)]] in
  let s := {| self := {| books := [mkBook 7 "C" "Z" 1999 "в наличии"];
                         next_id := 8 |};
              stdout := [];
              disk := {[ "library.json" := Document (JArr items) ]} |} in
  disk s !! "library.json" = Some (Document (JArr items)) ∧
  (∃ data, data ∈ items ∧ lacks_key data) ∧
  ∃ e, load_from_file "library.json" s = (Exc e, s) ∧
       (is_missing_key e ∨ is_type_error e) ∧
       (Forall is_object items → is_missing_key e).
Proof.
  intros items s.
  assert (disk s !! "library.json" = Some (Document (JArr items))) as H
    by reflexivity.
  assert (∃ data, data ∈ items ∧ lacks_key data) as Hlack.
  { exists (JObj [("book_id", JInt 2); ("title", JStr "B"); ("year", JInt 2001)]).
    split; [right; left |].
    eexists _, "author". split; [reflexivity |]. split; [| reflexivity].
    right. right. left. }
  split; [exact H |]. split; [exact Hlack |].
  exact (load_from_file_missing_key s "library.json" items H Hlack).
Defined.

(** The run of that example: the second object has no [author]. *)
Example load_from_file_missing_author :
  let items := [JObj [("book_id", JInt 1); ("title", JStr "A");
                      ("author", JStr "X"); ("year", JInt 2000)];
                JObj [("book_id", JInt 2); ("title", JStr "B");
                      ("year", JInt 2001)]] in
  let s := {| self := {| books := [mkBook 7 "C" "Z" 1999 "в наличии"];
                         next_id := 8 |};
              stdout := [];
              disk := {[ "library.json" := Document (JArr items) ]} |} in
  load_from_file "library.json" s = (Exc (KeyError "author"), s).
Proof. reflexivity. Qed.

(** ** Saving, then loading *)

Lemma load_row_to_dict b s : load_row (to_dict b) s = (Ret (row_of b), s).
Proof. reflexivity. Qed.

Lemma Book_init_row_of b s : Book_init (row_of b) s = (Ret b, s).
Proof. by destruct b. Qed.

Lemma comprehension_load_row_to_dict bs s :
  comprehension load_row (to_dict <$> bs) s = (Ret (row_of <$> bs), s).
Proof.
  induction bs as [|b bs IH]; [done |].
  rewrite !fmap_cons, comprehension_cons, load_row_to_dict, IH. done.
Qed.

Lemma comprehension_Book_init_row_of bs s :
  comprehension Book_init (row_of <$> bs) s = (Ret bs, s).
Proof.
  induction bs as [|b bs IH]; [done |].
  rewrite !fmap_cons, comprehension_cons, Book_init_row_of, IH. done.
Qed.

(** [py_max] returns an element that no element exceeds. *)
Lemma py_max_spec xs : ∀ x,
  py_max x xs ∈ x :: xs ∧ Forall (λ y, y ≤ py_max x xs) (x :: xs).
Proof.
  unfold py_max. induction xs as [|y xs IH]; intros x; simpl.
  - split; [by left |]. constructor; [lia | constructor].
  - destruct (IH (if bool_decide (x < y) then y else x)) as [Hin Hle].
    apply Forall_cons in Hle as [Hle1 Hle2].
    split.
    + apply elem_of_cons in Hin as [Hin|Hin]; [| by right; right].
      rewrite Hin. case_bool_decide; [right; left | left].
    + constructor; [| constructor; [| done]]; case_bool_decide; lia.
Qed.

Lemma load_from_file_saved (bs : list Book) (s : State) (filename : string) :
  disk s !! filename = Some (Document (JArr (to_dict <$> bs))) →
  ∃ n, one_past_max_id bs n ∧
       load_from_file filename s =
       (Ret (), {| self := {| books := bs; next_id := n |};
                   stdout := stdout s; disk := disk s |}).
Proof.
  intros H.
  exists (match bs with
          | [] => 1
          | b :: rest => py_max (book_id b) (book_id <$> rest) + 1
          end).
  split.
  - destruct bs as [|b rest]; [done |]. simpl.
    destruct (py_max_spec (book_id <$> rest) (book_id b)) as [Hin Hle].
    split.
    + change (book_id b :: (book_id <$> rest)) with (book_id <$> b :: rest) in Hin.
      apply list_elem_of_fmap in Hin as (b' & Hb' & Hin').
      exists b'. split; [done | by rewrite Hb'].
    + intros b' Hb'. rewrite Forall_forall in Hle.
      assert (book_id b' ≤ py_max (book_id b) (book_id <$> rest)); [| lia].
      apply Hle.
      change (book_id b :: (book_id <$> rest)) with (book_id <$> b :: rest).
      by apply list_elem_of_fmap_2.
  - load_step H. unfold json_load, iter.
    unfold mbind, mret, Py_bind, Py_ret, Py_bind_def, Py_ret_def.
    rewrite comprehension_load_row_to_dict, comprehension_Book_init_row_of.
    reflexivity.
Qed.

Lemma save_to_file_run filename s :
  save_to_file filename s =
  (Ret (), {| self := self s; stdout := stdout s;
              disk := <[filename := Document (JArr (to_dict <$> books (self s)))]>
                        (disk s) |}).
Proof. reflexivity. Qed.

(** C1. Saving any catalog to [filename] and then loading [filename]
    into a catalog that was just created: both calls return normally,
    nothing is printed, and the new catalog holds the saved records, field
    by field and in the same order, with [next_id] one more than the
    largest saved id, or 1 when no record was saved. *)
Theorem save_to_file_load_from_file (lib : Library) (out : list string)
    (d : gmap string file) (filename : string) :
  let saved := save_to_file filename {| self := lib; stdout := out; disk := d |} in
  let loaded := load_from_file filename
                  {| self := Library_init; stdout := stdout saved.2;
                     disk := disk saved.2 |} in
  saved.1 = Ret () ∧
  self saved.2 = lib ∧
  loaded.1 = Ret () ∧
  books (self loaded.2) = books lib ∧
  one_past_max_id (books lib) (next_id (self loaded.2)) ∧
  stdout loaded.2 = out ∧
  disk loaded.2 = disk saved.2.
Proof.
  intros saved loaded. subst loaded saved.
  rewrite save_to_file_run. cbn [fst snd self stdout disk].
  split; [done |]. split; [done |].
  set (s := {| self := Library_init |}).
  destruct (load_from_file_saved (books lib) s filename) as (n & Hn & ->).
  { apply lookup_insert_eq. }
  done.
Qed.

(** ** Repeated ids *)

Lemma remove_book_books id s :
  books (self (remove_book id s).2) = keep_others id (books (self s)).
Proof.
  destruct (decide (has_id id (books (self s)))) as [Hyes|Hno].
  - by rewrite remove_book_found.
  - rewrite remove_book_missing by done. simpl. by rewrite keep_others_none.
Qed.

(** C10. [remove_book id] deletes every record that carries [id] and
    keeps the others. [load_from_file] accepts an array in which two
    objects carry the same [book_id], and one removal of that id then
    deletes both records. Only when the ids of the catalog are pairwise
    distinct does a removal that finds its id shorten the list by exactly
    one record. *)
Theorem remove_book_every_match (s : State) (id : Z) (b1 b2 : Book)
    (d : gmap string file) (filename : string) :
  (∀ b, b ∈ books (self (remove_book id s).2) ↔
        b ∈ books (self s) ∧ book_id b ≠ id) ∧
  (book_id b1 = book_id b2 →
   d !! filename = Some (Document (JArr [to_dict b1; to_dict b2])) →
   let fresh := {| self := Library_init; stdout := []; disk := d |} in
   let loaded := load_from_file filename fresh in
   loaded.1 = Ret () ∧
   books (self loaded.2) = [b1; b2] ∧
   books (self (remove_book (book_id b1) loaded.2).2) = []) ∧
  (NoDup (book_id <$> books (self s)) → has_id id (books (self s)) →
   (length (books (self (remove_book id s).2)) + 1 = length (books (self s)))%nat).
Proof.
  split; [| split].
  - intros b. rewrite remove_book_books. apply elem_of_keep_others.
  - intros Hsame Hfile fresh loaded. subst loaded.
    destruct (load_from_file_saved [b1; b2] fresh filename Hfile)
      as (n & _ & ->).
    simpl. split; [done |]. split; [done |].
    rewrite remove_book_books. unfold keep_others. simpl.
    rewrite (bool_decide_eq_true_2 (book_id b1 = book_id b1)) by done.
    rewrite (bool_decide_eq_true_2 (book_id b2 = book_id b1)) by done.
    done.
  - intros Hnd Hid. rewrite remove_book_books.
    destruct (distinct_ids_split id _ Hnd Hid)
      as (pre & b & post & -> & Hb & Hpre & Hpost).
    rewrite keep_others_app. change (b :: post) with ([b] ++ post).
    rewrite keep_others_app.
    rewrite (keep_others_none id pre), (keep_others_none id post) by done.
    unfold keep_others. simpl. rewrite bool_decide_eq_true_2 by done. simpl.
    rewrite !length_app. simpl. lia.
Qed.

Lemma remove_book_every_match_witness :
  let b1 := mkBook 1 "A" "X" 2000 "в наличии" in
  let b2 := mkBook 1 "B" "Y" 2001 "в наличии" in
  let d : gmap string file :=
    {[ "library.json" := Document (JArr [to_dict b1; to_dict b2]) ]} in
  let fresh := {| self := Library_init; stdout := []; disk := d |} in
  let s := {| self := {| books := [mkBook 1 "A" "X" 2000 "в наличии";
                                  mkBook 2 "B" "Y" 2001 "в наличии"];
                         next_id := 3 |};
              stdout := []; disk := ∅ |} in
  (book_id b1 = book_id b2 ∧
   d !! "library.json" = Some (Document (JArr [to_dict b1; to_dict b2])) ∧
   books (self (load_from_file "library.json" fresh).2) = [b1; b2] ∧
   books (self (remove_book 1 (load_from_file "library.json" fresh).2).2) = []) ∧
  (NoDup (book_id <$> books (self s)) ∧ has_id 2 (books (self s)) ∧
   (length (books (self (remove_book 2 s).2)) + 1 = length (books (self s)))%nat).
Proof.
  intros b1 b2 d fresh s.
  assert (book_id b1 = book_id b2) as Hsame by reflexivity.
  assert (d !! "library.json" = Some (Document (JArr [to_dict b1; to_dict b2])))
    as Hfile by reflexivity.
  assert (NoDup (book_id <$> books (self s))) as Hnd.
  { simpl. apply NoDup_cons. split; [| apply NoDup_singleton].
    intros Hin. apply list_elem_of_singleton in Hin. discriminate Hin. }
  assert (has_id 2 (books (self s))) as Hid.
  { exists (mkBook 2 "B" "Y" 2001 "в наличии"). split; [| reflexivity].
    simpl. right. left. }
  destruct (remove_book_every_match s 2 b1 b2 d "library.json")
    as (_ & Htwins & Hone).
  destruct (Htwins Hsame Hfile) as (_ & Hloaded & Hremoved).
  split.
  - split; [exact Hsame |]. split; [exact Hfile |].
    split; [exact Hloaded | exact Hremoved].
  - split; [exact Hnd |]. split; [exact Hid | exact (Hone Hnd Hid)].
Defined.

(** ** The scenario of the specification *)

(** C8. On a fresh catalog: the two [add_book] calls give out the ids 1
    and 2; after [remove_book 1] the search for ["B"] returns the record
    with id 2 and title ["B"] and nothing else; [change_status 2 "issued"]
    sets the status of that record; and a catalog that loads the saved
    file holds that one record, with status ["issued"], and has [next_id]
    equal to 3. *)
Theorem end_to_end_scenario :
  let s0 := {| self := Library_init; stdout := []; disk := ∅ |} in
  let s1 := (add_book "A" "X" 2000 s0).2 in
  let s2 := (add_book "B" "Y" 2001 s1).2 in
  let s3 := (remove_book 1 s2).2 in
  let found := search_books "B" s3 in
  let s4 := (change_status 2 "issued" found.2).2 in
  let s5 := (save_to_file "library.json" s4).2 in
  let s6 := (load_from_file "library.json"
               {| self := Library_init; stdout := stdout s5; disk := disk s5 |}).2 in
  books (self s1) = [mkBook 1 "A" "X" 2000 default_status] ∧
  books (self s2) = [mkBook 1 "A" "X" 2000 default_status;
                     mkBook 2 "B" "Y" 2001 default_status] ∧
  books (self s3) = [mkBook 2 "B" "Y" 2001 default_status] ∧
  found.1 = Ret [mkBook 2 "B" "Y" 2001 default_status] ∧
  books (self s4) = [mkBook 2 "B" "Y" 2001 "issued"] ∧
  self s6 = {| books := [mkBook 2 "B" "Y" 2001 "issued"]; next_id := 3 |} ∧
  stdout s6 = [].
Proof. vm_compute. repeat split. Qed.

(** * Further properties of the methods *)

(** ** Printing *)

Lemma for_each_print {A} (f : A → string) (items : list A) : ∀ s,
  for_each (λ x, print (f x)) items s =
  (Ret (), {| self := self s; stdout := stdout s ++ (f <$> items);
              disk := disk s |}).
Proof.
  induction items as [|x items IH]; intros s.
  - simpl. unfold mret, Py_ret, Py_ret_def. rewrite app_nil_r. by destruct s.
  - cbn [for_each]. unfold mbind, Py_bind, Py_bind_def, print at 1.
    rewrite IH. simpl. by rewrite <- app_assoc.
Qed.

(** X1. [display_books] returns normally and prints one line for each
    record, in catalog order, each line made of the five fields of its
    record; the records, [next_id] and the disk are unchanged. *)
Theorem display_books_lines (s : State) :
  display_books s =
  (Ret (), {| self := self s;
              stdout := stdout s ++ (book_line "" <$> books (self s));
              disk := disk s |}) ∧
  length (stdout (display_books s).2) =
  (length (stdout s) + length (books (self s)))%nat.
Proof.
  assert (display_books s =
          (Ret (), {| self := self s;
                      stdout := stdout s ++ (book_line "" <$> books (self s));
                      disk := disk s |})) as Hrun.
  { unfold display_books. py_step. apply for_each_print. }
  split; [exact Hrun |].
  rewrite Hrun. simpl. by rewrite length_app, length_fmap.
Qed.

(** ** Status changes, again *)

Lemma change_status_at id new_status pre b post s :
  books (self s) = pre ++ b :: post → ¬ has_id id pre → book_id b = id →
  change_status id new_status s =
  (Ret (), with_books (pre ++ set_status new_status b :: post) s).
Proof.
  intros Hbs Hpre Hb. unfold change_status. py_step. rewrite Hbs at 1.
  rewrite change_status_loop_hit by done. simpl.
  rewrite Hbs. unfold with_books. do 3 f_equal.
  replace (length pre) with (length pre + 0)%nat by lia.
  by rewrite insert_app_r.
Qed.

(** X2. When no record carries [id], [change_status id new_status]
    returns normally, prints the not-found message, and leaves the
    records, [next_id] and the disk as they were. *)
Theorem change_status_not_found (s : State) (id : Z) (new_status : string) :
  ¬ has_id id (books (self s)) →
  change_status id new_status s =
  (Ret (), {| self := self s; stdout := stdout s ++ [status_msg];
              disk := disk s |}).
Proof. intros Hno. by rewrite change_status_missing. Qed.

Lemma change_status_not_found_witness :
  let s := {| self := {| books := [mkBook 1 "A" "X" 2000 "в наличии"];
                         next_id := 2 |};
              stdout := []; disk := ∅ |} in
  ¬ has_id 5 (books (self s)) ∧
  change_status 5 "выдана" s =
  (Ret (), {| self := self s; stdout := stdout s ++ [status_msg];
              disk := disk s |}).
Proof.
  intros s.
  assert (¬ has_id 5 (books (self s))) as Hno.
  { intros (b & Hin & Hid). simpl in Hin.
    apply list_elem_of_singleton in Hin. subst b. discriminate Hid. }
  split; [exact Hno |].
  exact (change_status_not_found s 5 "выдана" Hno).
Defined.

(** X3. Of two changes of status of the same id in a row, the second
    one decides: the records are those that the second change alone
    would leave. *)
Theorem change_status_last_wins (s : State) (id : Z) (first second : string) :
  books (self (change_status id second (change_status id first s).2).2) =
  books (self (change_status id second s).2).
Proof.
  destruct (decide (has_id id (books (self s)))) as [Hyes|Hno].
  - destruct (first_match_split id _ Hyes) as (pre & b & post & Hbs & Hb & Hpre).
    rewrite (change_status_at id first pre b post s) by done.
    rewrite (change_status_at id second pre b post s) by done.
    rewrite (change_status_at id second pre (set_status first b) post); done.
  - rewrite (change_status_missing s) by done.
    rewrite !change_status_missing; done.
Qed.

(** ** Adding, then searching or removing *)

Lemma search_books_run term s :
  search_books term s =
  (Ret (List.filter
          (λ book, str_in term (title book) || str_in term (author book)
                   || bool_decide (term = str_int (year book)))
          (books (self s))), s).
Proof. reflexivity. Qed.

Lemma append_empty_r t : t +:+ "" = t.
Proof.
  induction t as [|c t IH]; [done |].
  change (String c t +:+ "") with (String c (t +:+ "")). by rewrite IH.
Qed.

Lemma str_in_refl t : str_in t t = true.
Proof.
  apply str_in_spec. exists "", "".
  change ("" +:+ t +:+ "") with (t +:+ ""). by rewrite append_empty_r.
Qed.

(** X4. The record that [add_book] makes goes to the end of the list,
    with the id [next_id] and the default status, and a search for its
    title, for its author, or for the numeral of its year returns it, as
    the last of the records found. *)
Theorem add_book_then_search_books (s : State) (t a : string) (y : Z)
    (term : string) :
  term = t ∨ term = a ∨ term = str_int y →
  let new := mkBook (next_id (self s)) t a y default_status in
  let s' := (add_book t a y s).2 in
  books (self s') = books (self s) ++ [new] ∧
  ∃ found, search_books term s' = (Ret found, s') ∧ last found = Some new.
Proof.
  intros Hterm new s'. subst s'. rewrite add_book_run. cbn [snd self books].
  split; [done |]. rewrite search_books_run. cbn [self books].
  eexists. split; [done |].
  rewrite List.filter_app. cbn [List.filter title author year new].
  assert (str_in term t || str_in term a || bool_decide (term = str_int y) = true)
    as ->.
  { rewrite !orb_true_iff, bool_decide_eq_true.
    destruct Hterm as [->| [->| ->]]; auto using str_in_refl. }
  apply last_snoc.
Qed.

Lemma add_book_then_search_books_witness :
  let s := {| self := {| books := [mkBook 1 "A" "X" 2000 "в наличии"];
                         next_id := 2 |};
              stdout := []; disk := ∅ |} in
  let new := mkBook 2 "B" "Y" 2001 default_status in
  let s' := (add_book "B" "Y" 2001 s).2 in
  ("2001" = "B" ∨ "2001" = "Y" ∨ "2001" = str_int 2001) ∧
  books (self s') = books (self s) ++ [new] ∧
  ∃ found, search_books "2001" s' = (Ret found, s') ∧ last found = Some new.
Proof.
  intros s new s'.
  assert ("2001" = "B" ∨ "2001" = "Y" ∨ "2001" = str_int 2001) as Hterm
    by (right; right; reflexivity).
  split; [exact Hterm |].
  exact (add_book_then_search_books s "B" "Y" 2001 "2001" Hterm).
Defined.

(** X5. When no record carries the id that is about to be given out,
    adding a record and then removing the id it got leaves the list of
    records as it was before the two calls, prints nothing, and leaves
    [next_id] one higher: the id is spent. *)
Theorem add_book_then_remove_book (s : State) (t a : string) (y : Z) :
  ¬ has_id (next_id (self s)) (books (self s)) →
  let s' := (remove_book (next_id (self s)) (add_book t a y s).2).2 in
  books (self s') = books (self s) ∧
  next_id (self s') = next_id (self s) + 1 ∧
  stdout s' = stdout s ∧
  disk s' = disk s.
Proof.
  intros Hfresh s'. subst s'. rewrite add_book_run. cbn [snd].
  rewrite remove_book_found.
  - cbn [snd with_books self books next_id stdout disk].
    rewrite keep_others_app, keep_others_none by done.
    unfold keep_others. cbn [List.filter book_id].
    rewrite bool_decide_eq_true_2 by done. simpl. by rewrite app_nil_r.
  - cbn [self books].
    exists (mkBook (next_id (self s)) t a y default_status).
    split; [| reflexivity]. apply elem_of_app. right. by left.
Qed.

Lemma add_book_then_remove_book_witness :
  let s := {| self := {| books := [mkBook 1 "A" "X" 2000 "в наличии"];
                         next_id := 2 |};
              stdout := []; disk := ∅ |} in
  let s' := (remove_book (next_id (self s)) (add_book "B" "Y" 2001 s).2).2 in
  ¬ has_id (next_id (self s)) (books (self s)) ∧
  books (self s') = books (self s) ∧
  next_id (self s') = next_id (self s) + 1 ∧
  stdout s' = stdout s ∧
  disk s' = disk s.
Proof.
  intros s s'.
  assert (¬ has_id (next_id (self s)) (books (self s))) as Hfresh.
  { intros (b & Hin & Hid). simpl in Hin.
    apply list_elem_of_singleton in Hin. subst b. discriminate Hid. }
  split; [exact Hfresh |].
  exact (add_book_then_remove_book s "B" "Y" 2001 Hfresh).
Defined.

(** ** Catalogs stay in good order *)

Lemma remove_book_run id s :
  ∃ out, remove_book id s =
         (Ret (), {| self := {| books := keep_others id (books (self s));
                                next_id := next_id (self s) |};
                     stdout := out; disk := disk s |}).
Proof.
  destruct (decide (has_id id (books (self s)))) as [Hyes|Hno].
  - exists (stdout s). by rewrite remove_book_found.
  - exists (stdout s ++ [remove_msg]). rewrite remove_book_missing by done.
    unfold with_line. rewrite keep_others_none by done. by destruct s as [[??]??].
Qed.

Lemma change_status_run id new_status s :
  ∃ bs out, change_status id new_status s =
            (Ret (), {| self := {| books := bs; next_id := next_id (self s) |};
                        stdout := out; disk := disk s |}) ∧
            book_id <$> bs = book_id <$> books (self s).
Proof.
  destruct (decide (has_id id (books (self s)))) as [Hyes|Hno].
  - destruct (first_match_split id _ Hyes) as (pre & b & post & Hbs & Hb & Hpre).
    exists (pre ++ set_status new_status b :: post), (stdout s).
    rewrite (change_status_at id new_status pre b post s) by done.
    split; [done |]. rewrite Hbs, !fmap_app, !fmap_cons. done.
  - exists (books (self s)), (stdout s ++ [status_msg]).
    rewrite change_status_missing by done. split; [| done].
    unfold with_line. by destruct s as [[??]??].
Qed.

Lemma well_formed_ids bs bs' n :
  book_id <$> bs' = book_id <$> bs →
  well_formed {| books := bs; next_id := n |} →
  well_formed {| books := bs'; next_id := n |}.
Proof.
  unfold well_formed. simpl. intros Hids (Hnd & Hlow & Hn).
  split; [by rewrite Hids |]. split; [| done].
  intros b Hb. apply (list_elem_of_fmap_2 book_id) in Hb.
  rewrite Hids in Hb. apply list_elem_of_fmap in Hb as (b0 & -> & Hb0). auto.
Qed.

Lemma well_formed_keep_others id bs n :
  well_formed {| books := bs; next_id := n |} →
  well_formed {| books := keep_others id bs; next_id := n |}.
Proof.
  unfold well_formed. simpl. intros (Hnd & Hlow & Hn).
  split; [| split; [| done]].
  - clear Hlow. induction bs as [|b bs IH]; [done |].
    rewrite fmap_cons in Hnd. apply NoDup_cons in Hnd as [Hb Hnd].
    unfold keep_others. simpl. destruct (negb _); [| by apply IH].
    rewrite fmap_cons. apply NoDup_cons. split; [| by apply IH].
    intros Hin. apply Hb. apply list_elem_of_fmap in Hin as (x & Hx & Hin).
    apply elem_of_keep_others in Hin as [Hin _]. rewrite Hx.
    by apply list_elem_of_fmap_2.
  - intros b Hb. apply elem_of_keep_others in Hb as [Hb _]. auto.
Qed.

Lemma well_formed_add bs n t a y :
  well_formed {| books := bs; next_id := n |} →
  well_formed {| books := bs ++ [mkBook n t a y default_status];
                 next_id := n + 1 |}.
Proof.
  unfold well_formed. simpl. intros (Hnd & Hlow & Hn).
  split; [| split; [| lia]].
  - rewrite fmap_app. apply NoDup_app. split; [done |]. split.
    + intros i Hi Hin. simpl in Hin. apply list_elem_of_singleton in Hin.
      apply list_elem_of_fmap in Hi as (b & -> & Hb). specialize (Hlow b Hb). lia.
    + apply NoDup_singleton.
  - intros b Hb. apply elem_of_app in Hb as [Hb|Hb].
    + specialize (Hlow b Hb). lia.
    + apply list_elem_of_singleton in Hb. subst b. simpl. lia.
Qed.

Lemma well_formed_eta lib :
  well_formed {| books := books lib; next_id := next_id lib |} ↔ well_formed lib.
Proof. by destruct lib. Qed.

Lemma run_method_well_formed m s :
  well_formed (self s) →
  ∃ s', run_method m s = (Ret (), s') ∧ well_formed (self s').
Proof.
  intros Hwf. apply well_formed_eta in Hwf.
  destruct m as [t a y|id|term| |id new_status|filename]; cbn [run_method].
  - eexists. rewrite add_book_run. split; [done |]. by apply well_formed_add.
  - destruct (remove_book_run id s) as (out & ->).
    eexists. split; [done |]. by apply well_formed_keep_others.
  - eexists. unfold mbind, Py_bind, Py_bind_def. rewrite search_books_run.
    split; [done |]. by apply well_formed_eta.
  - eexists. unfold display_books, mbind, Py_bind, Py_bind_def, get_books.
    rewrite for_each_print. split; [done |]. by apply well_formed_eta.
  - destruct (change_status_run id new_status s) as (bs & out & -> & Hids).
    eexists. split; [done |]. by apply (well_formed_ids (books (self s))).
  - eexists. rewrite save_to_file_run. split; [done |]. by apply well_formed_eta.
Qed.

(** X6. Starting from a catalog whose ids are pairwise distinct,
    positive and below [next_id], any sequence of calls of [add_book],
    [remove_book], [search_books], [display_books], [change_status] and
    [save_to_file] returns normally, call after call, and ends in a
    catalog with the same three properties. The catalog made by
    [Library.__init__] has them. *)
Theorem methods_keep_well_formed (calls : list method_call) (s : State) :
  well_formed (self s) →
  (for_each run_method calls s).1 = Ret () ∧
  well_formed (self (for_each run_method calls s).2) ∧
  well_formed Library_init.
Proof.
  intros Hwf. split; [| split].
  - revert s Hwf. induction calls as [|m calls IH]; intros s Hwf; [done |].
    cbn [for_each]. unfold mbind, Py_bind, Py_bind_def.
    destruct (run_method_well_formed m s Hwf) as (s' & -> & Hwf'). by apply IH.
  - revert s Hwf. induction calls as [|m calls IH]; intros s Hwf; [done |].
    cbn [for_each]. unfold mbind, Py_bind, Py_bind_def.
    destruct (run_method_well_formed m s Hwf) as (s' & -> & Hwf'). by apply IH.
  - unfold well_formed, Library_init. simpl.
    split; [constructor |]. split; [| done].
    intros b Hb. by apply elem_of_nil in Hb.
Qed.

Lemma methods_keep_well_formed_witness :
  let s := {| self := Library_init; stdout := []; disk := ∅ |} in
  let calls := [CallAdd "A" "X" 2000; CallAdd "B" "Y" 2001; CallRemove 1;
                CallChangeStatus 2 "выдана"; CallAdd "C" "Z" 2002;
                CallSave "library.json"] in
  well_formed (self s) ∧
  (for_each run_method calls s).1 = Ret () ∧
  well_formed (self (for_each run_method calls s).2) ∧
  well_formed Library_init.
Proof.
  intros s calls.
  assert (well_formed (self s)) as Hwf.
  { unfold well_formed. simpl. split; [constructor |]. split; [| done].
    intros b Hb. by apply elem_of_nil in Hb. }
  split; [exact Hwf |].
  exact (methods_keep_well_formed calls s Hwf).
Defined.

(** ** Loading, in general *)

Lemma load_row_pure data s :
  ∃ r, load_row data s = (r, s) ∧ ∀ e, r = Exc e → from_row e.
Proof.
  destruct data as [| | | | | |fields];
    try (eexists; split; [reflexivity |]; by intros e [= <-]).
  unfold load_row, getitem, get_method.
  unfold mbind, mret, mthrow, Py_bind, Py_ret, Py_throw, Py_bind_def, Py_ret_def.
  destruct (dict_lookup fields "book_id");
    [| eexists; split; [reflexivity |]; by intros e [= <-]].
  destruct (dict_lookup fields "title");
    [| eexists; split; [reflexivity |]; by intros e [= <-]].
  destruct (dict_lookup fields "author");
    [| eexists; split; [reflexivity |]; by intros e [= <-]].
  destruct (dict_lookup fields "year");
    [| eexists; split; [reflexivity |]; by intros e [= <-]].
  eexists; split; [reflexivity |]; by intros e [=].
Qed.

Lemma Book_init_pure r s :
  ∃ o, Book_init r s = (o, s) ∧ ∀ e, o ≠ Exc e.
Proof.
  destruct r as [[[[i t] a] y] st].
  destruct i; try (eexists; split; [reflexivity | done]).
  destruct t; try (eexists; split; [reflexivity | done]).
  destruct a; try (eexists; split; [reflexivity | done]).
  destruct y; try (eexists; split; [reflexivity | done]).
  destruct st; eexists; (split; [reflexivity | done]).
Qed.

Lemma comprehension_pure {A B} (f : A → Py B) (P : exn → Prop) :
  (∀ x s, ∃ r, f x s = (r, s) ∧ ∀ e, r = Exc e → P e) →
  ∀ items s, ∃ r, comprehension f items s = (r, s) ∧ ∀ e, r = Exc e → P e.
Proof.
  intros Hf. induction items as [|x items IH]; intros s.
  - eexists. split; [reflexivity | done].
  - rewrite comprehension_cons.
    destruct (Hf x s) as ([y|e|] & -> & He).
    + destruct (IH s) as ([ys|e|] & -> & He').
      * eexists. split; [reflexivity | done].
      * eexists. split; [reflexivity |]. intros e' [= <-]. by apply He'.
      * eexists. split; [reflexivity | done].
    + eexists. split; [reflexivity |]. intros e' [= <-]. by apply He.
    + eexists. split; [reflexivity | done].
Qed.

Lemma iter_pure v s :
  ∃ r, iter v s = (r, s) ∧ ∀ e, r = Exc e → from_row e.
Proof.
  destruct v; eexists; (split; [reflexivity |]); by intros e [= <-].
Qed.

Lemma py_max_one_past bs :
  one_past_max_id bs
    (match bs with
     | [] => 1
     | b :: rest => py_max (book_id b) (book_id <$> rest) + 1
     end).
Proof.
  destruct bs as [|b rest]; [done |]. simpl.
  destruct (py_max_spec (book_id <$> rest) (book_id b)) as [Hin Hle].
  change (book_id b :: (book_id <$> rest)) with (book_id <$> b :: rest) in *.
  split.
  - apply list_elem_of_fmap in Hin as (b' & Hb' & Hin').
    exists b'. split; [done | by rewrite Hb'].
  - intros b' Hb'. rewrite Forall_forall in Hle.
    assert (book_id b' ≤ py_max (book_id b) (book_id <$> rest)); [| lia].
    apply Hle. by apply list_elem_of_fmap_2.
Qed.

(** The three ways in which loading a document can end. *)
Lemma load_from_file_document s filename v :
  disk s !! filename = Some (Document v) →
  (∃ bs n, load_from_file filename s =
           (Ret (), {| self := {| books := bs; next_id := n |};
                       stdout := stdout s; disk := disk s |}) ∧
           one_past_max_id bs n) ∨
  (∃ e, load_from_file filename s = (Exc e, s) ∧ from_row e) ∨
  load_from_file filename s = (Untyped, s).
Proof.
  intros H. load_step H. unfold json_load.
  unfold mbind, mret, Py_bind, Py_ret, Py_bind_def, Py_ret_def.
  destruct (iter_pure v s) as ([items|e|] & -> & He).
  - destruct (comprehension_pure load_row from_row load_row_pure items s)
      as ([rows|e|] & -> & He').
    + destruct (comprehension_pure Book_init (λ _, False)) with (items := rows) (s := s)
        as ([bs|e|] & -> & He'').
      { intros r s0. destruct (Book_init_pure r s0) as (o & -> & Ho).
        eexists. split; [reflexivity |]. intros e ->. by destruct (Ho e). }
      * left. exists bs. eexists. split; [reflexivity |]. apply py_max_one_past.
      * by destruct (He'' e).
      * by right; right.
    + right. left. exists e. specialize (He' e eq_refl).
      split; [| done]. by destruct e.
    + by right; right.
  - right. left. exists e. specialize (He e eq_refl).
    split; [| done]. by destruct e.
  - by right; right.
Qed.

(** X7. Loading replaces, it does not merge: whatever the catalog held,
    after loading a file written from the records [bs] it holds [bs] and
    nothing else, with [next_id] recomputed from [bs]; nothing is
    printed and the disk is unchanged. *)
Theorem load_from_file_replaces (s : State) (filename : string) (bs : list Book) :
  disk s !! filename = Some (Document (JArr (to_dict <$> bs))) →
  ∃ n, load_from_file filename s =
       (Ret (), {| self := {| books := bs; next_id := n |};
                   stdout := stdout s; disk := disk s |}) ∧
       one_past_max_id bs n.
Proof.
  intros H. destruct (load_from_file_saved bs s filename H) as (n & Hn & Hrun).
  by exists n.
Qed.

Lemma load_from_file_replaces_witness :
  let bs := [mkBook 4 "D" "W" 1984 "выдана"] in
  let s := {| self := {| books := [mkBook 1 "A" "X" 2000 "в наличии";
                                  mkBook 9 "B" "Y" 2001 "в наличии"];
                         next_id := 10 |};
              stdout := [];
              disk := {[ "library.json" := Document (JArr (to_dict <$> bs)) ]} |} in
  disk s !! "library.json" = Some (Document (JArr (to_dict <$> bs))) ∧
  ∃ n, load_from_file "library.json" s =
       (Ret (), {| self := {| books := bs; next_id := n |};
                   stdout := stdout s; disk := disk s |}) ∧
       one_past_max_id bs n.
Proof.
  intros bs s.
  assert (disk s !! "library.json" = Some (Document (JArr (to_dict <$> bs))))
    as H by reflexivity.
  split; [exact H |].
  exact (load_from_file_replaces s "library.json" bs H).
Defined.

Lemma load_row_without_status b s :
  load_row (dict_without_status b) s =
  (Ret (row_of (set_status default_status b)), s).
Proof. reflexivity. Qed.

Lemma comprehension_load_row_without_status bs s :
  comprehension load_row (dict_without_status <$> bs) s =
  (Ret (row_of ∘ set_status default_status <$> bs), s).
Proof.
  induction bs as [|b bs IH]; [done |].
  rewrite !fmap_cons, comprehension_cons, load_row_without_status, IH. done.
Qed.

(** X8. The key [status] is optional in a file: records written without
    it are loaded with the default status, and with their other four
    fields as written. *)
Theorem load_from_file_default_status (s : State) (filename : string)
    (bs : list Book) :
  disk s !! filename = Some (Document (JArr (dict_without_status <$> bs))) →
  (load_from_file filename s).1 = Ret () ∧
  books (self (load_from_file filename s).2) =
  (λ b, mkBook (book_id b) (title b) (author b) (year b) default_status) <$> bs.
Proof.
  intros H.
  assert (∃ n, load_from_file filename s =
               (Ret (), {| self := {| books := set_status default_status <$> bs;
                                      next_id := n |};
                           stdout := stdout s; disk := disk s |})) as (n & ->).
  { eexists. load_step H. unfold json_load, iter.
    unfold mbind, mret, Py_bind, Py_ret, Py_bind_def, Py_ret_def.
    rewrite comprehension_load_row_without_status.
    rewrite (list_fmap_compose (set_status default_status) row_of).
    rewrite comprehension_Book_init_row_of. reflexivity. }
  done.
Qed.

Lemma load_from_file_default_status_witness :
  let bs := [mkBook 1 "A" "X" 2000 "выдана"; mkBook 2 "B" "Y" 2001 ""] in
  let s := {| self := Library_init; stdout := [];
              disk := {[ "old.json" := Document (JArr (dict_without_status <$> bs)) ]} |} in
  disk s !! "old.json" = Some (Document (JArr (dict_without_status <$> bs))) ∧
  (load_from_file "old.json" s).1 = Ret () ∧
  books (self (load_from_file "old.json" s).2) =
  (λ b, mkBook (book_id b) (title b) (author b) (year b) default_status) <$> bs.
Proof.
  intros bs s.
  assert (disk s !! "old.json" = Some (Document (JArr (dict_without_status <$> bs))))
    as H by reflexivity.
  split; [exact H |].
  exact (load_from_file_default_status s "old.json" bs H).
Defined.

(** X9. A document over which the [for] of the comprehension finds
    nothing to visit, be it the empty array, the empty object or the
    empty string, empties the catalog: whatever it held, it then holds no
    record and [next_id] is 1. *)
Theorem load_from_file_empty_document (s : State) (filename : string) (v : json) :
  disk s !! filename = Some (Document v) →
  v = JArr [] ∨ v = JObj [] ∨ v = JStr "" →
  load_from_file filename s =
  (Ret (), {| self := Library_init; stdout := stdout s; disk := disk s |}).
Proof.
  intros H [->|[->| ->]]; by load_step H.
Qed.

Lemma load_from_file_empty_document_witness :
  let s := {| self := {| books := [mkBook 1 "A" "X" 2000 "в наличии"];
                         next_id := 2 |};
              stdout := [];
              disk := {[ "library.json" := Document (JObj []) ]} |} in
  disk s !! "library.json" = Some (Document (JObj [])) ∧
  (JObj [] = JArr [] ∨ JObj [] = JObj [] ∨ JObj [] = JStr "") ∧
  load_from_file "library.json" s =
  (Ret (), {| self := Library_init; stdout := stdout s; disk := disk s |}).
Proof.
  intros s.
  assert (disk s !! "library.json" = Some (Document (JObj []))) as H
    by reflexivity.
  assert (JObj [] = JArr [] ∨ JObj [] = JObj [] ∨ JObj [] = JStr "") as Hv
    by (right; left; reflexivity).
  split; [exact H |]. split; [exact Hv |].
  exact (load_from_file_empty_document s "library.json" (JObj []) H Hv).
Defined.

Lemma chars_nonempty c s : chars (String c s) ≠ [].
Proof.
  cbn [chars]. destruct s as [|d s']; [done |].
  destruct (chars (String d s')); [done |]. by destruct (is_continuation d).
Qed.

Lemma load_from_file_iter_fails s filename v e :
  disk s !! filename = Some (Document v) →
  iter v s = (Exc e, s) → from_row e →
  load_from_file filename s = (Exc e, s).
Proof.
  intros H Hiter He. load_step H. unfold json_load.
  unfold mbind, mret, Py_bind, Py_ret, Py_bind_def, Py_ret_def.
  rewrite Hiter. by destruct e.
Qed.

Lemma load_from_file_first_row_fails s filename v x items e :
  disk s !! filename = Some (Document v) →
  iter v s = (Ret (x :: items), s) →
  load_row x s = (Exc e, s) → from_row e →
  load_from_file filename s = (Exc e, s).
Proof.
  intros H Hiter Hrow He. load_step H. unfold json_load.
  unfold mbind, mret, Py_bind, Py_ret, Py_bind_def, Py_ret_def.
  rewrite Hiter, comprehension_cons, Hrow. by destruct e.
Qed.

(** X10. Any other document that is not an array (a number, [true],
    [false], [null], an object with a key, a string with a character)
    makes the call fail with a [TypeError] that nothing catches; the
    catalog, the output and the disk are as before. *)
Theorem load_from_file_not_an_array (s : State) (filename : string) (v : json) :
  disk s !! filename = Some (Document v) →
  (∀ items, v ≠ JArr items) → v ≠ JObj [] → v ≠ JStr "" →
  ∃ msg, load_from_file filename s = (Exc (TypeError msg), s).
Proof.
  intros H Harr Hobj Hstr.
  destruct v as [| | | |t|items|fields].
  - eexists. by apply (load_from_file_iter_fails s filename JNull).
  - eexists. by apply (load_from_file_iter_fails s filename (JBool b)).
  - eexists. by apply (load_from_file_iter_fails s filename (JInt n)).
  - eexists. by apply (load_from_file_iter_fails s filename JFloat).
  - destruct t as [|c t]; [done |].
    pose proof (chars_nonempty c t) as Hne.
    destruct (chars (String c t)) as [|h rest] eqn:Hchars; [done |].
    eexists.
    apply (load_from_file_first_row_fails s filename (JStr (String c t))
             (JStr h) (JStr <$> rest));
      [done | | reflexivity | done].
    unfold iter, mret, Py_ret, Py_ret_def. by rewrite Hchars.
  - by destruct (Harr items).
  - destruct fields as [|[k x] fields]; [done |]. eexists.
    by apply (load_from_file_first_row_fails s filename
                (JObj ((k, x) :: fields)) (JStr k) (JStr <$> fields.*1)).
Qed.

Lemma load_from_file_not_an_array_witness :
  let s := {| self := {| books := [mkBook 1 "A" "X" 2000 "в наличии"];
                         next_id := 2 |};
              stdout := [];
              disk := {[ "library.json" := Document (JInt 5) ]} |} in
  disk s !! "library.json" = Some (Document (JInt 5)) ∧
  ∃ msg, load_from_file "library.json" s = (Exc (TypeError msg), s).
Proof.
  intros s.
  assert (disk s !! "library.json" = Some (Document (JInt 5))) as H
    by reflexivity.
  split; [exact H |].
  apply (load_from_file_not_an_array s "library.json" (JInt 5) H);
    intros; discriminate.
Defined.






(** ** Saving *)



(** X14. [next_id] is not saved. After saving a catalog in good order
    and loading the file into a new catalog, [next_id] is at most what it
    was, and it is lower exactly when the id given out last belongs to no
    saved record: that id, given out before and removed since, is given
    out again by the next [add_book]. *)
Theorem reload_next_id (lib : Library) (out : list string)
    (d : gmap string file) (filename : string) :
  well_formed lib →
  let saved := (save_to_file filename {| self := lib; stdout := out; disk := d |}).2 in
  let loaded := (load_from_file filename
                   {| self := Library_init; stdout := stdout saved;
                      disk := disk saved |}).2 in
  next_id (self loaded) ≤ next_id lib ∧
  (next_id (self loaded) < next_id lib ↔
   next_id lib ≠ 1 ∧ ¬ has_id (next_id lib - 1) (books lib)).
Proof.
  intros (Hnd & Hlow & Hone) saved loaded. subst loaded saved.
  rewrite save_to_file_run. cbn [snd self stdout disk].
  set (s := {| self := Library_init |}).
  destruct (load_from_file_saved (books lib) s filename) as (n & Hn & ->).
  { apply lookup_insert_eq. }
  cbn [snd self next_id].
  destruct (books lib) as [|b0 bs] eqn:Hbs.
  - simpl in Hn. subst n. split; [done |]. split.
    + intros Hlt. split; [lia | apply not_has_id_nil].
    + intros [Hne _]. lia.
  - destruct Hn as [(b & Hb & ->) Hmax].
    pose proof (Hlow b Hb) as Hb_low.
    split; [lia |]. split.
    + intros Hlt. split; [lia |]. intros (b' & Hb' & Hid).
      specialize (Hmax b' Hb'). lia.
    + intros [_ Hno]. destruct (decide (book_id b + 1 = next_id lib)) as [Heq|Hne].
      * destruct Hno. exists b. split; [done | lia].
      * lia.
Qed.

Lemma reload_next_id_witness :
  let lib := {| books := [mkBook 1 "A" "X" 2000 "в наличии"]; next_id := 3 |} in
  let saved := (save_to_file "library.json"
                  {| self := lib; stdout := []; disk := ∅ |}).2 in
  let loaded := (load_from_file "library.json"
                   {| self := Library_init; stdout := stdout saved;
                      disk := disk saved |}).2 in
  well_formed lib ∧
  next_id (self loaded) ≤ next_id lib ∧
  (next_id (self loaded) < next_id lib ↔
   next_id lib ≠ 1 ∧ ¬ has_id (next_id lib - 1) (books lib)).
Proof.
  intros lib saved loaded.
  assert (well_formed lib) as Hwf.
  { unfold well_formed. simpl. split; [apply NoDup_singleton |].
    split; [| lia]. intros b Hb. apply list_elem_of_singleton in Hb.
    subst b. simpl. lia. }
  split; [exact Hwf |].
  exact (reload_next_id lib [] ∅ "library.json" Hwf).
Defined.

(** * Properties of the menu *)

(** ** Methods that do not touch the disk *)

Lemma carries_on_refl c : carries_on c c.
Proof. split; [done |]. split; [done | reflexivity]. Qed.

Lemma carries_on_trans c1 c2 c3 :
  carries_on c1 c2 → carries_on c2 c3 → carries_on c1 c3.
Proof.
  intros (Hd1 & Hw1 & Hs1) (Hd2 & Hw2 & Hs2). split; [congruence |].
  split; [auto | by etrans].
Qed.

Lemma quiet_print line : quiet (print line).
Proof.
  intros s. eexists _, _. split; [reflexivity |]. split; [done |]. done.
Qed.

Lemma quiet_add_book t a y : quiet (add_book t a y).
Proof.
  intros s. eexists _, _. rewrite add_book_run. split; [reflexivity |].
  split; [done |]. intros Hwf. apply well_formed_eta in Hwf.
  by apply well_formed_add.
Qed.

Lemma quiet_remove_book id : quiet (remove_book id).
Proof.
  intros s. destruct (remove_book_run id s) as (out & ->).
  eexists _, _. split; [reflexivity |]. split; [done |].
  intros Hwf. apply well_formed_eta in Hwf. by apply well_formed_keep_others.
Qed.

Lemma quiet_search_books term : quiet (search_books term).
Proof.
  intros s. rewrite search_books_run. eexists _, _. split; [reflexivity |]. done.
Qed.

Lemma quiet_for_each_print {A} (f : A → string) items :
  quiet (for_each (λ x, print (f x)) items).
Proof.
  intros s. rewrite for_each_print. eexists _, _. split; [reflexivity |]. done.
Qed.

Lemma quiet_display_books : quiet display_books.
Proof.
  intros s. unfold display_books, mbind, Py_bind, Py_bind_def, get_books.
  apply quiet_for_each_print.
Qed.

Lemma quiet_change_status id new_status : quiet (change_status id new_status).
Proof.
  intros s. destruct (change_status_run id new_status s) as (bs & out & -> & Hids).
  eexists _, _. split; [reflexivity |]. split; [done |].
  intros Hwf. apply well_formed_eta in Hwf.
  by apply (well_formed_ids (books (self s))).
Qed.

(** ** Parts of the menu *)

Lemma tame_ret {A} (Q : A → Prop) a : Q a → tame Q (mret a).
Proof.
  intros HQ c. eexists _, _. split; [reflexivity |].
  split; [apply carries_on_refl |]. left. by exists a.
Qed.

Lemma tame_bind {A B} (P : A → Prop) (Q : B → Prop) (m : IO A) (k : A → IO B) :
  tame P m → (∀ a, P a → tame Q (k a)) → tame Q (m ≫= k).
Proof.
  intros Hm Hk c. unfold mbind, IO_bind, IO_bind_def.
  destruct (Hm c) as (o & c' & -> & Hc & [(a & -> & Ha)|[(e & ->)| ->]]).
  - destruct (Hk a Ha c') as (o' & c'' & -> & Hc' & Ho').
    eexists _, _. split; [reflexivity |]. split; [by eapply carries_on_trans | done].
  - eexists _, _. split; [reflexivity |]. split; [done |]. right. left. by exists e.
  - eexists _, _. split; [reflexivity |]. split; [done |]. right. by right.
Qed.

Lemma tame_call_py {A} (m : Py A) : quiet m → tame (λ _, True) (call_py m).
Proof.
  intros Hm c. unfold call_py. destruct (Hm (session c)) as (a & s' & -> & Hd & Hwf).
  eexists _, _. split; [reflexivity |].
  split; [split; [done |]; split; [done | reflexivity] |].
  left. by exists a.
Qed.

Lemma tame_input prompt : tame (λ _, True) (input prompt).
Proof.
  intros c. unfold input. destruct (stdin c) as [|line rest] eqn:Hin.
  - eexists _, _. split; [reflexivity |]. split; [| by right; right].
    split; [done |]. split; [done |]. simpl. by rewrite Hin.
  - eexists _, _. split; [reflexivity |]. split; [| left; by exists line].
    split; [done |]. split; [done |]. simpl. rewrite Hin. by apply suffix_cons_r.
Qed.

Section menu_properties.

Variable py_int : string → Z + string.

Lemma tame_int text : tame (λ _, True) (int py_int text).
Proof.
  intros c. unfold int. destruct (py_int text) as [n|msg].
  - eexists _, _. split; [reflexivity |]. split; [apply carries_on_refl |].
    left. by exists n.
  - eexists _, _. split; [reflexivity |]. split; [apply carries_on_refl |].
    right. left. by eexists.
Qed.

Ltac tame_steps :=
  repeat first
    [ apply tame_ret; reflexivity
    | eapply tame_bind;
        [ first [ apply tame_input | apply tame_int
                | apply tame_call_py;
                    first [ apply quiet_print | apply quiet_add_book
                          | apply quiet_remove_book | apply quiet_search_books
                          | apply quiet_for_each_print | apply quiet_display_books
                          | apply quiet_change_status ] ]
        | intros ? _ ] ].

(** Every choice but 6 carries on and asks for another round. *)
Lemma menu_choice_other choice :
  choice ≠ "6" → tame (λ again, again = true) (menu_choice py_int choice).
Proof.
  intros Hchoice. unfold menu_choice.
  repeat case_bool_decide; try done; tame_steps.
Qed.

(** Choice 6 saves and stops the loop. *)
Lemma menu_choice_save c :
  menu_choice py_int "6" c =
  (Fin (Ret false),
   {| session := (save_to_file "library.json" (session c)).2;
      stdin := stdin c; asked := asked c |}).
Proof. reflexivity. Qed.

(** What one round does. *)
Lemma menu_round_spec c :
  ∃ o c', menu_round py_int c = (o, c') ∧
    stdin c' `suffix_of` stdin c ∧
    (well_formed (self (session c)) → well_formed (self (session c'))) ∧
    ((o = Fin (Ret true) ∧ (length (stdin c') < length (stdin c))%nat ∧
      disk (session c') = disk (session c)) ∨
     (o = Fin (Ret false) ∧ "6" ∈ stdin c ∧
      disk (session c') =
      <["library.json" := saved_catalog (self (session c'))]> (disk (session c))) ∨
     (crashed o ∧ disk (session c') = disk (session c))).
Proof.
  unfold menu_round, mbind, IO_bind, IO_bind_def, input.
  cbn [call_py print fst snd session stdin asked].
  destruct (stdin c) as [|choice rest] eqn:Hin.
  - eexists _, _. split; [reflexivity |]. cbn [session stdin self disk].
    split; [done |]. split; [done |]. right. right. split; [by right | done].
  - destruct (decide (choice = "6")) as [->|Hne].
    + rewrite menu_choice_save, save_to_file_run.
      eexists _, _. split; [reflexivity |]. cbn [snd session stdin self disk].
      split; [by apply suffix_cons_r |]. split; [done |].
      right. left. split; [done |]. split; [by left | done].
    + match goal with
      | |- context [menu_choice py_int choice ?c1] =>
          destruct (menu_choice_other choice Hne c1)
            as (o & c' & -> & (Hd & Hw & Hs) & Ho)
      end.
      cbn [session stdin self disk] in Hd, Hw, Hs.
      eexists _, _. split; [reflexivity |].
      split; [by apply suffix_cons_r |]. split; [done |].
      destruct Ho as [(again & -> & ->)|Hcrash].
      * left. split; [done |]. split; [| done].
        apply suffix_length in Hs. simpl. lia.
      * right. right. by split.
Qed.

Lemma elem_of_suffix {A} (x : A) (l1 l2 : list A) :
  l1 `suffix_of` l2 → x ∈ l1 → x ∈ l2.
Proof. intros [k ->] Hx. apply elem_of_app. by right. Qed.

(** What the loop does, given rounds enough for the lines to come. *)
Lemma menu_loop_spec n : ∀ c,
  (length (stdin c) < n)%nat →
  ∃ o c', menu_loop py_int n c = (o, c') ∧
    stdin c' `suffix_of` stdin c ∧
    (well_formed (self (session c)) → well_formed (self (session c'))) ∧
    ((o = Fin (Ret ()) ∧ "6" ∈ stdin c ∧
      disk (session c') =
      <["library.json" := saved_catalog (self (session c'))]> (disk (session c))) ∨
     (crashed o ∧ disk (session c') = disk (session c))).
Proof.
  induction n as [|n IH]; intros c Hfuel; [lia |].
  cbn [menu_loop]. unfold mbind, IO_bind, IO_bind_def.
  destruct (menu_round_spec c)
    as (o & c1 & -> & Hs & Hw & [(-> & Hlen & Hd)|[(-> & Hsix & Hd)|(Hcrash & Hd)]]).
  - destruct (IH c1) as (o' & c' & -> & Hs' & Hw' & Ho'); [lia |].
    eexists _, _. split; [reflexivity |]. split; [by etrans |]. split; [auto |].
    destruct Ho' as [(-> & Hsix & Hd')|(Hcrash & Hd')].
    + left. split; [done |]. split; [by eapply elem_of_suffix |]. by rewrite Hd', Hd.
    + right. split; [done | congruence].
  - eexists _, _. split; [reflexivity |]. split; [done |]. split; [done |].
    left. by repeat split.
  - destruct Hcrash as [(e & ->)| ->].
    + eexists _, _. split; [reflexivity |]. split; [done |]. split; [done |].
      right. split; [left; by exists e | done].
    + eexists _, _. split; [reflexivity |]. split; [done |]. split; [done |].
      right. split; [by right | done].
Qed.


(** ** Starting the program *)

Lemma well_formed_loaded bs n :
  NoDup (book_id <$> bs) → (∀ b, b ∈ bs → 1 ≤ book_id b) →
  one_past_max_id bs n → well_formed {| books := bs; next_id := n |}.
Proof.
  intros Hnd Hpos Hn. unfold well_formed. simpl. split; [done |].
  destruct bs as [|b0 bs].
  - simpl in Hn. subst n. split; [| done]. intros b Hb. by apply elem_of_nil in Hb.
  - destruct Hn as [(b & Hb & ->) Hmax]. split.
    + intros b' Hb'. split; [by apply Hpos | by apply Hmax].
    + specialize (Hpos b Hb). lia.
Qed.

Lemma well_formed_init : well_formed Library_init.
Proof.
  unfold well_formed, Library_init. simpl. split; [constructor |].
  split; [| done]. intros b Hb. by apply elem_of_nil in Hb.
Qed.

(** The load at the start of the program: the disk is not written, and a
    good file gives a catalog in good order. *)
Lemma load_from_file_start (s0 : State) :
  self s0 = Library_init →
  ∃ o s1, load_from_file "library.json" s0 = (o, s1) ∧ disk s1 = disk s0 ∧
          (good_file (disk s0) → well_formed (self s1)).
Proof.
  intros Hinit.
  destruct (disk s0 !! "library.json") as [[|msg|v|msg]|] eqn:H.
  - eexists _, _. rewrite load_from_file_zero_length by done.
    split; [reflexivity |]. split; [done |]. intros _. simpl. rewrite Hinit.
    apply well_formed_init.
  - assert (load_from_file "library.json" s0 = (Ret (), with_line format_msg s0))
      as -> by by load_step H.
    eexists _, _. split; [reflexivity |]. split; [done |].
    intros _. simpl. rewrite Hinit. apply well_formed_init.
  - destruct (load_from_file_document s0 "library.json" v H)
      as [(bs & n & Hrun & Hn)|[(e & Hrun & _)|Hrun]].
    + eexists _, _. split; [exact Hrun |]. split; [done |].
      intros [Hgood|[Hgood|(bs0 & Hfile & Hnd & Hpos)]]; [congruence | congruence |].
      destruct (load_from_file_saved bs0 s0 "library.json" Hfile)
        as (n0 & Hn0 & Hrun0).
      rewrite Hrun0 in Hrun. injection Hrun as <- <-. simpl.
      by apply well_formed_loaded.
    + eexists _, _. split; [exact Hrun |]. split; [done |].
      intros _. rewrite Hinit. apply well_formed_init.
    + eexists _, _. split; [exact Hrun |]. split; [done |].
      intros _. rewrite Hinit. apply well_formed_init.
  - assert (load_from_file "library.json" s0 = (Exc (UnicodeDecodeError msg), s0))
      as -> by by load_step H.
    eexists _, _. split; [reflexivity |]. split; [done |].
    intros _. rewrite Hinit. apply well_formed_init.
  - eexists _, _. rewrite load_from_file_absent by done.
    split; [reflexivity |]. split; [done |]. intros _. simpl. rewrite Hinit.
    apply well_formed_init.
Qed.

(** What a run of the program does. *)
Lemma main_menu_spec c :
  ∃ o c', main_menu py_int c = (o, c') ∧
    o ≠ OutOfFuel ∧
    (good_file (disk (session c)) → well_formed (self (session c'))) ∧
    ((o = Fin (Ret ()) ∧ "6" ∈ stdin c ∧
      disk (session c') =
      <["library.json" := saved_catalog (self (session c'))]> (disk (session c))) ∨
     (o ≠ Fin (Ret ()) ∧ disk (session c') = disk (session c))).
Proof.
  unfold main_menu, mbind, IO_bind, IO_bind_def.
  cbn [call_py new_library fst snd session stdin asked].
  match goal with
  | |- context [load_from_file "library.json" ?s0] =>
      destruct (load_from_file_start s0 eq_refl) as (o & s1 & -> & Hd & Hwf)
  end.
  cbn [fst snd disk] in *.
  destruct o as [[]|e|].
  - match goal with
    | |- context [menu_loop py_int ?n ?c1] =>
        destruct (menu_loop_spec n c1) as (o' & c' & -> & Hs & Hw & Ho')
    end; [simpl; lia |].
    cbn [session stdin self] in Hs, Hw, Ho'.
    eexists _, _. split; [reflexivity |].
    destruct Ho' as [(-> & Hsix & Hd')|(Hcrash & Hd')].
    + split; [done |]. split; [auto |]. left. split; [done |].
      split; [done |]. by rewrite Hd', Hd.
    + split; [by destruct Hcrash as [(e & ->)| ->] |]. split; [auto |].
      right. split; [by destruct Hcrash as [(e & ->)| ->] | congruence].
  - eexists _, _. split; [reflexivity |]. split; [done |]. split; [done |].
    right. by split.
  - eexists _, _. split; [reflexivity |]. split; [done |]. split; [done |].
    right. by split.
Qed.



(** X17. A session keeps the catalog and its file in good order. When
    [library.json] is absent, or empty, or holds records with pairwise
    distinct positive ids, then however the session goes, the catalog at
    its end has pairwise distinct positive ids below [next_id], and the
    file is again absent, empty, or holds such records: the next session
    starts from a good file too. *)
Theorem main_menu_well_formed (c : Console) :
  good_file (disk (session c)) →
  let r := main_menu py_int c in
  well_formed (self (session r.2)) ∧ good_file (disk (session r.2)).
Proof.
  intros Hgood r. subst r.
  destruct (main_menu_spec c)
    as (o & c' & -> & _ & Hwf & [(-> & Hsix & Hd)|(Ho & Hd)]); cbn [fst snd].
  - specialize (Hwf Hgood). split; [done |].
    right. right. exists (books (self (session c'))).
    rewrite Hd. split; [apply lookup_insert_eq |].
    destruct Hwf as (Hnd & Hlow & _). split; [done |].
    intros b Hb. by destruct (Hlow b Hb).
  - split; [auto |]. by rewrite Hd.
Qed.

(** X18. What a session that returns leaves behind is what the next one
    starts with: loading [library.json] from the disk it left gives a
    catalog with the records of the final catalog, in their order. *)
Theorem main_menu_next_session (c : Console) (out : list string) :
  (main_menu py_int c).1 = Fin (Ret ()) →
  let c' := (main_menu py_int c).2 in
  let start := {| self := Library_init; stdout := out;
                  disk := disk (session c') |} in
  (load_from_file "library.json" start).1 = Ret () ∧
  books (self (load_from_file "library.json" start).2) =
  books (self (session c')).
Proof.
  intros Hret c' start. subst start c'. revert Hret.
  destruct (main_menu_spec c)
    as (o & c' & -> & _ & _ & [(-> & Hsix & Hd)|(Ho & Hd)]); cbn [fst snd];
    [| done].
  intros _.
  set (start := {| self := Library_init |}).
  destruct (load_from_file_saved (books (self (session c'))) start "library.json")
    as (n & _ & ->); [| done].
  subst start. cbn [disk]. rewrite Hd. apply lookup_insert_eq.
Qed.

End menu_properties.

(** ** Sessions, run *)


Lemma main_menu_well_formed_witness :
  let c := {| session := {| self := Library_init; stdout := []; disk := ∅ |};
              stdin := ["1"; "A"; "X"; "2000"; "1"; "B"; "Y"; "2001"; "2"; "1"; "6"];
              asked := [] |} in
  let r := main_menu int_of_digits c in
  good_file (disk (session c)) ∧
  well_formed (self (session r.2)) ∧ good_file (disk (session r.2)).
Proof.
  intros c r.
  assert (good_file (disk (session c))) as Hgood by (left; reflexivity).
  split; [exact Hgood |].
  exact (main_menu_well_formed int_of_digits c Hgood).
Defined.

Lemma main_menu_next_session_witness :
  let c := {| session := {| self := Library_init; stdout := []; disk := ∅ |};
              stdin := ["1"; "A"; "X"; "2000"; "5"; "1"; "выдана"; "6"];
              asked := [] |} in
  let c' := (main_menu int_of_digits c).2 in
  let start := {| self := Library_init; stdout := [];
                  disk := disk (session c') |} in
  (main_menu int_of_digits c).1 = Fin (Ret ()) ∧
  (load_from_file "library.json" start).1 = Ret () ∧
  books (self (load_from_file "library.json" start).2) =
  books (self (session c')).
Proof.
  intros c c' start.
  assert ((main_menu int_of_digits c).1 = Fin (Ret ())) as Hret
    by (vm_compute; reflexivity).
  split; [exact Hret |].
  exact (main_menu_next_session int_of_digits c [] Hret).
Defined.

(** The session of the last example, run: one record, with the status
    that was typed in. *)
Example main_menu_session :
  let c := {| session := {| self := Library_init; stdout := []; disk := ∅ |};
              stdin := ["1"; "A"; "X"; "2000"; "5"; "1"; "выдана"; "6"];
              asked := [] |} in
  self (session (main_menu int_of_digits c).2) =
  {| books := [mkBook 1 "A" "X" 2000 "выдана"]; next_id := 2 |}.
Proof. vm_compute. reflexivity. Qed.
